(** * diffoci: the [diff] subcommand

    A shallow embedding of [cmd/diffoci/commands/diff/diff.go]: the alias
    expansion done in [PreRunE] and the orchestration done in [action].

    Go packages are rendered as modules.  The flag set of the command is a
    finite map from flag names to flags; Go's [(T, error)] results are pairs
    or sums; logging, collaborator calls and process exit are made explicit
    by a small monad over the outside world. *)

From Stdlib Require Import ZArith Ascii String List.
From stdpp Require Import base option list gmap strings pretty.

Local Open Scope string_scope.
Set Warnings "-register-all".

(** ** Go errors *)

(** An error value as far as this command can observe it: its message and
    its [Unwrap] chain.  [ErrUnavailable] is the sentinel of
    [github.com/containerd/errdefs]. *)
Inductive error : Type :=
| ErrUnavailable
| Opaque (msg : string)
| Wrapped (msg : string) (err : error).

(** [err.Error()] *)
Definition Error (e : error) : string :=
  match e with
  | ErrUnavailable => "unavailable"
  | Opaque msg => msg
  | Wrapped msg _ => msg
  end.

(** [errors.Is(err, errdefs.ErrUnavailable)]: walk the [Unwrap] chain. *)
Fixpoint Is_ErrUnavailable (e : error) : bool :=
  match e with
  | ErrUnavailable => true
  | Opaque _ => false
  | Wrapped _ inner => Is_ErrUnavailable inner
  end.

(** ** Package strconv *)
Module strconv.

Definition dquote : ascii := "034"%char.
Definition backslash : ascii := "092"%char.

Definition hexDigit (n : N) : ascii :=
  ascii_of_N (if (n <? 10)%N then 48 + n else 87 + n).

(** The escape of one byte inside a quoted Go string literal.  Bytes above
    0x7e other than 0x7f are taken to belong to printable UTF-8 text and are
    copied. *)
Definition escape (c : ascii) : string :=
  let n := N_of_ascii c in
  if (n =? 34)%N then String backslash (String dquote EmptyString)
  else if (n =? 92)%N then String backslash (String backslash EmptyString)
  else if (n =? 7)%N then String backslash "a"
  else if (n =? 8)%N then String backslash "b"
  else if (n =? 12)%N then String backslash "f"
  else if (n =? 10)%N then String backslash "n"
  else if (n =? 13)%N then String backslash "r"
  else if (n =? 9)%N then String backslash "t"
  else if (n =? 11)%N then String backslash "v"
  else if ((n <? 32)%N || (n =? 127)%N)%bool
       then String backslash
              (String "x" (String (hexDigit (n / 16)) (String (hexDigit (n mod 16)) EmptyString)))
  else String c EmptyString.

Fixpoint escapeAll (s : string) : string :=
  match s with
  | EmptyString => EmptyString
  | String c rest => escape c +:+ escapeAll rest
  end.

(** [strconv.Quote], the rendering of the [%q] verb. *)
Definition Quote (s : string) : string :=
  String dquote (escapeAll s +:+ String dquote EmptyString).

(** [strconv.FormatBool] *)
Definition FormatBool (b : bool) : string := if b then "true" else "false".

(** [strconv.ParseBool]: the parsed value and the error, as Go returns them. *)
Definition ParseBool (str : string) : bool * option error :=
  if bool_decide (str ∈ ["1"; "t"; "T"; "TRUE"; "true"; "True"]) then (true, None)
  else if bool_decide (str ∈ ["0"; "f"; "F"; "FALSE"; "false"; "False"]) then (false, None)
  else (false,
        Some (Wrapped ("strconv.ParseBool: parsing " +:+ Quote str +:+ ": invalid syntax")
                      (Opaque "invalid syntax"))).

End strconv.

(** ** Package pflag *)
Module pflag.

(** The [Value] interface: [String() string], [Set(string) error] and
    [Type() string] over the state of the implementing type.  [Set] returns
    the state it leaves behind next to its error. *)
Record Value (A : Type) : Type := {
  Value_String : A -> string;
  Value_Set : A -> string -> A * option error;
  Value_Type : A -> string
}.
Arguments Value_String {A}.
Arguments Value_Set {A}.
Arguments Value_Type {A}.

(** A [Flag]: a value of some type implementing [Value], and the [Changed]
    mark.  The name is the key of the flag in its flag set. *)
Record Flag : Type := {
  state : Type;
  methods : Value state;
  value : state;
  Changed : bool
}.

(** [FlagSet.formal] *)
Abbreviation FlagSet := (gmap string Flag).

(** [boolValue] *)
Definition boolValue : Value bool := {|
  Value_String b := strconv.FormatBool b;
  Value_Set _ s := strconv.ParseBool s;
  Value_Type _ := "bool"
|}.

(** [stringValue] *)
Definition stringValue : Value string := {|
  Value_String s := s;
  Value_Set _ val := (val, None);
  Value_Type _ := "string"
|}.

Definition boolFlag (b changed : bool) : Flag :=
  {| state := bool; methods := boolValue; value := b; Changed := changed |}.

Definition stringFlag (s : string) (changed : bool) : Flag :=
  {| state := string; methods := stringValue; value := s; Changed := changed |}.

(** [FlagSet.Set(name, value)].  The flag's value is updated through its own
    [Set] method; [Changed] is raised only when that method succeeds. *)
Definition FlagSet_Set (f : FlagSet) (name val : string) : FlagSet * option error :=
  match f !! name with
  | None => (f, Some (Opaque ("no such flag -" +:+ name)))
  | Some flag =>
      let '(v, err) := Value_Set (methods flag) (value flag) val in
      match err with
      | Some e =>
          (<[name := {| state := state flag; methods := methods flag;
                        value := v; Changed := Changed flag |}]> f,
           Some (Opaque ("invalid argument " +:+ strconv.Quote val +:+ " for "
                         +:+ strconv.Quote ("--" +:+ name) +:+ " flag: " +:+ Error e)))
      | None =>
          (<[name := {| state := state flag; methods := methods flag;
                        value := v; Changed := true |}]> f,
           None)
      end
  end.

(** [FlagSet.getFlagType(name, ftype, convFunc)] *)
Definition getFlagType {T : Type} (f : FlagSet) (name ftype : string)
    (convFunc : string -> T + error) : T + error :=
  match f !! name with
  | None => inr (Opaque ("flag accessed but not defined: " +:+ name))
  | Some flag =>
      let ty := Value_Type (methods flag) (value flag) in
      if bool_decide (ty = ftype)
      then convFunc (Value_String (methods flag) (value flag))
      else inr (Opaque ("trying to get " +:+ ftype +:+ " value of flag of type " +:+ ty))
  end.

Definition boolConv (sval : string) : bool + error :=
  match strconv.ParseBool sval with
  | (b, None) => inl b
  | (_, Some e) => inr e
  end.

Definition stringConv (sval : string) : string + error := inl sval.

(** [FlagSet.GetBool(name)]: [false] next to the error when the read fails. *)
Definition GetBool (f : FlagSet) (name : string) : bool * option error :=
  match getFlagType f name "bool" boolConv with
  | inl b => (b, None)
  | inr e => (false, Some e)
  end.

(** [FlagSet.GetString(name)] *)
Definition GetString (f : FlagSet) (name : string) : string * option error :=
  match getFlagType f name "string" stringConv with
  | inl s => (s, None)
  | inr e => ("", Some e)
  end.

End pflag.

Import pflag.

(** ** [NewCommand]: the flags and [PreRunE] *)

(** [for _, f := range flagNames { if err := flags.Set(f, "true"); err != nil
    { return err } }] over the mutable flag set. *)
Fixpoint setEach (flags : FlagSet) (flagNames : list string) : FlagSet * option error :=
  match flagNames with
  | [] => (flags, None)
  | f :: rest =>
      match FlagSet_Set flags f "true" with
      | (flags, Some err) => (flags, Some err)
      | (flags, None) => setEach flags rest
      end
  end.

(** One [if alias, _ := cmd.Flags().GetBool(name); alias { ... }] block. *)
Definition expand (alias : string) (flagNames : list string) (flags : FlagSet)
    : FlagSet * option error :=
  if (GetBool flags alias).1 then setEach flags flagNames else (flags, None).

(** Sequencing of two blocks of a function returning [error]: the second
    runs when the first did not return. *)
Definition andThen (r : FlagSet * option error) (k : FlagSet -> FlagSet * option error)
    : FlagSet * option error :=
  match r with
  | (flags, None) => k flags
  | (flags, Some err) => (flags, Some err)
  end.

Definition semanticFlagNames : list string :=
  [ "ignore-history";
    "ignore-file-order";
    "ignore-file-mode-redundant-bits";
    "ignore-file-mtime";
    "ignore-file-atime";
    "ignore-file-ctime";
    "ignore-image-timestamps";
    "ignore-image-name";
    "ignore-tar-format";
    "treat-canonical-paths-equal" ].

Definition ignoreTimestampsFlagNames : list string :=
  [ "ignore-file-mtime";
    "ignore-file-atime";
    "ignore-file-ctime";
    "ignore-image-timestamps" ].

Definition ignoreFileTimestampsFlagNames : list string :=
  [ "ignore-file-mtime";
    "ignore-file-atime";
    "ignore-file-ctime" ].

(** [PreRunE]: the flag set it leaves behind and the error it returns. *)
Definition PreRunE (flags : FlagSet) : FlagSet * option error :=
  andThen (expand "semantic" semanticFlagNames flags) (fun flags =>
  andThen (expand "ignore-timestamps" ignoreTimestampsFlagNames flags) (fun flags =>
  andThen (expand "ignore-file-timestamps" ignoreFileTimestampsFlagNames flags) (fun flags =>
  (flags, None)))).

(** The three alias rules, to run them in another order than [PreRunE]'s. *)
Inductive Alias : Type := Semantic | IgnoreTimestamps | IgnoreFileTimestamps.

Definition aliasFlag (a : Alias) : string :=
  match a with
  | Semantic => "semantic"
  | IgnoreTimestamps => "ignore-timestamps"
  | IgnoreFileTimestamps => "ignore-file-timestamps"
  end.

Definition aliasFlagNames (a : Alias) : list string :=
  match a with
  | Semantic => semanticFlagNames
  | IgnoreTimestamps => ignoreTimestampsFlagNames
  | IgnoreFileTimestamps => ignoreFileTimestampsFlagNames
  end.

#[global] Instance Alias_eq_dec : EqDecision Alias.
Proof. solve_decision. Defined.

Definition rule (a : Alias) : FlagSet -> FlagSet * option error :=
  expand (aliasFlag a) (aliasFlagNames a).

Fixpoint runRules (order : list Alias) (flags : FlagSet) : FlagSet * option error :=
  match order with
  | [] => (flags, None)
  | a :: rest => andThen (rule a flags) (runRules rest)
  end.

(** The boolean flags registered by [NewCommand] with [flags.Bool]. *)
Definition boolFlagNames : list string :=
  [ "ignore-timestamps";
    "ignore-history";
    "ignore-file-order";
    "ignore-file-mode-redundant-bits";
    "ignore-file-timestamps";
    "ignore-file-mtime";
    "ignore-file-atime";
    "ignore-file-ctime";
    "extra-ignore-file-permissions";
    "extra-ignore-file-mode";
    "extra-ignore-file-content";
    "extra-ignore-layer-length-mismatch";
    "ignore-image-timestamps";
    "ignore-image-name";
    "ignore-tar-format";
    "treat-canonical-paths-equal";
    "semantic";
    "verbose" ].

(** A raw flag set of the command: whatever the command line supplied, each
    flag registered with [flags.Bool] is still a [boolValue] flag. *)
Definition isBoolFlag (flags : FlagSet) (name : string) : Prop :=
  ∃ b changed, flags !! name = Some (boolFlag b changed).

Definition registered (flags : FlagSet) : Prop :=
  ∀ name, name ∈ boolFlagNames → isBoolFlag flags name.

(** The names an alias resolution may write: the lists of the aliases that
    read [true]. *)
Definition expandedNames (flags : FlagSet) : list string :=
  (if (GetBool flags "semantic").1 then semanticFlagNames else [])
  ++ (if (GetBool flags "ignore-timestamps").1 then ignoreTimestampsFlagNames else [])
  ++ (if (GetBool flags "ignore-file-timestamps").1 then ignoreFileTimestampsFlagNames else []).

(** Whether rule [a] writes flag [k] when its alias is read in [flags]. *)
Definition writes (flags : FlagSet) (k : string) (a : Alias) : bool :=
  (GetBool flags (aliasFlag a)).1 && bool_decide (k ∈ aliasFlagNames a).

(** ** [action]: the data it handles *)

(** [ocispec.Descriptor], as far as the command reads it. *)
Record Descriptor : Type := {
  MediaType : string;
  Digest : string;
  Size : Z
}.

(** [imagegetter.Image] *)
Record Image : Type := {
  Name : string;
  Target : Descriptor
}.

(** [diff.EventTreeNode]: the report returned by the comparison. *)
Inductive EventTreeNode : Type :=
| Node (context : string) (children : list EventTreeNode).

Definition Children (n : EventTreeNode) : list EventTreeNode :=
  match n with Node _ children => children end.

(** [diff.DefaultEventHandler] and [diff.VerboseEventHandler] *)
Inductive EventHandler : Type := DefaultEventHandler | VerboseEventHandler.

(** [diff.Options] *)
Record Options (float64 : Type) : Type := {
  IgnoreHistory : bool;
  IgnoreFileOrder : bool;
  IgnoreFileModeRedundantBits : bool;
  IgnoreFileMTime : bool;
  IgnoreFileATime : bool;
  IgnoreFileCTime : bool;
  IgnoreFilePermissions : bool;
  IgnoreFileMode : bool;
  IgnoreFileContent : bool;
  IgnoreLayerLengthMismatch : bool;
  IgnoreFiles : list string;
  IgnoreImageTimestamps : bool;
  IgnoreImageName : bool;
  IgnoreTarFormat : bool;
  CanonicalPaths : bool;
  ReportFile : string;
  ReportDir : string;
  handler : EventHandler;
  MaxScale : float64
}.
Arguments ReportFile {float64}.
Arguments ReportDir {float64}.

(** The collaborators of [action] that live outside this file: the other
    packages of the repository and the libraries, over a state of the outside
    world (registries, file system, environment) that is not inspected
    here. *)
Class Collaborators : Type := {
  World : Type;
  float64 : Type;
  Backend : Type;
  Platform : Type;
  MatchComparer : Type;
  ContentStore : Type;
  ImageGetter : Type;
  (* pflag: the conversions behind GetStringSlice and GetFloat64 *)
  stringSliceConv : string -> list string + error;
  float64Conv : string -> float64 + error;
  (* backendmanager.NewBackend(cmd), backend.ContentStore() *)
  NewBackend : FlagSet -> World -> (Backend + error) * World;
  Backend_ContentStore : Backend -> ContentStore;
  (* flagutil.ParsePlatformFlags(flags), platformutil.FormatSlice(plats),
     platforms.Any(plats...) *)
  ParsePlatformFlags : FlagSet -> list Platform + error;
  FormatSlice : list Platform -> list string;
  platforms_Any : list Platform -> MatchComparer;
  (* localpathutil.Expand(path): both results, as Go returns them *)
  Expand : World -> string -> string * option error;
  (* imagegetter.New(stderr, backend), ig.Get(ctx, ref, plats, pullMode) *)
  imagegetter_New : Backend -> ImageGetter + error;
  Get : ImageGetter -> string -> list Platform -> string -> World -> (Image + error) * World;
  (* diff.Diff(ctx, contentStore, imageDescs, platMC, &options) *)
  Diff : ContentStore -> list Descriptor -> MatchComparer -> Options float64 ->
         World -> (option EventTreeNode * option error) * World
}.

(** Severity of a log line of [log.G(ctx)]. *)
Inductive Level : Type := ErrorLevel | WarnLevel | InfoLevel | DebugLevel.

(** How a run of [action] ends. *)
Inductive Outcome : Type :=
| Returned (err : option error)
| Exited (code : Z)
| Panicked.

Inductive Res (A : Type) : Type :=
| Val (a : A)
| Stop (o : Outcome).
Arguments Val {A}.
Arguments Stop {A}.

Section Orchestration.
Context {X : Collaborators}.

(** What a run does that can be observed from outside, in order. *)
Inductive Event : Type :=
| Log (level : Level) (msg : string)
| CallGet (ref : string) (plats : list Platform) (pullMode : string)
| RetGet (r : Image + error)
| CallDiff (imageDescs : list Descriptor) (platMC : MatchComparer) (options : Options float64)
| RetDiff (report : option EventTreeNode) (err : option error).

(** A step of [action]: it runs in a world, leaves a world, emits events and
    either yields a value or ends the run. *)
Definition M (A : Type) : Type := World -> Res A * World * list Event.

Definition ret {A : Type} (a : A) : M A := fun w => (Val a, w, []).

Definition bind {A B : Type} (m : M A) (k : A -> M B) : M B :=
  fun w =>
    match m w with
    | (Val a, w1, t1) => let '(r, w2, t2) := k a w1 in (r, w2, (t1 ++ t2)%list)
    | (Stop o, w1, t1) => (Stop o, w1, t1)
    end.

(** [return err] *)
Definition Return {A : Type} (err : option error) : M A :=
  fun w => (Stop (Returned err), w, []).

(** [os.Exit(code)] *)
Definition os_Exit {A : Type} (code : Z) : M A :=
  fun w => (Stop (Exited code), w, []).

Definition panic {A : Type} : M A := fun w => (Stop Panicked, w, []).

(** [log.G(ctx).<Level>(msg)] *)
Definition log (level : Level) (msg : string) : M unit :=
  fun w => (Val tt, w, [Log level msg]).

Definition emit (e : Event) : M unit := fun w => (Val tt, w, [e]).

(** [v, err := f(...); if err != nil { return err }] for the three shapes of
    result. *)
Definition check {A : Type} (r : A + error) : M A :=
  match r with
  | inl a => ret a
  | inr err => Return (Some err)
  end.

Definition get {A : Type} (r : A * option error) : M A :=
  match r with
  | (a, None) => ret a
  | (_, Some err) => Return (Some err)
  end.

Definition call {A : Type} (f : World -> (A + error) * World) : M A :=
  fun w =>
    match f w with
    | (inl a, w1) => (Val a, w1, [])
    | (inr err, w1) => (Stop (Returned (Some err)), w1, [])
    end.

(** A call into a collaborator that changes the world; its result is
    recorded. *)
Definition invoke {A : Type} (f : World -> A * World) (returned : A -> Event) : M A :=
  fun w => let '(a, w1) := f w in (Val a, w1, [returned a]).

(** Reading the environment through [localpathutil.Expand]. *)
Definition expandPath (path : string) : M (string * option error) :=
  fun w => (Val (Expand w path), w, []).

(** [ensures m w Q]: the run of [m] from the world [w] ends in a result, a
    world and a trace that satisfy [Q]. *)
Definition ensures {A : Type} (m : M A) (w : World)
    (Q : Res A -> World -> list Event -> Prop) : Prop :=
  let '(r, w1, t) := m w in Q r w1 t.

End Orchestration.

Declare Scope go_scope.
Delimit Scope go_scope with go.
Notation "x <- m ;; k" := (bind m (fun x => k))
  (at level 100, m at next level, right associativity) : go_scope.
Notation "m ;;; k" := (bind m (fun _ => k))
  (at level 100, right associativity) : go_scope.

Section Action.
Context {X : Collaborators}.
Local Open Scope go_scope.

(** [FlagSet.GetStringSlice(name)] and [FlagSet.GetFloat64(name)] *)
Definition GetStringSlice (f : FlagSet) (name : string) : list string + error :=
  getFlagType f name "stringSlice" stringSliceConv.

Definition GetFloat64 (f : FlagSet) (name : string) : float64 + error :=
  getFlagType f name "float64" float64Conv.

(** The [%v] rendering of a [[]string]. *)
Definition fmt_v (l : list string) : string :=
  "[" +:+ String.concat " " l +:+ "]".

Definition reportFileWarning : string :=
  "report-file is experimental. The file format is subject to change.".

Definition platformHint : string :=
  " (Hint: specify `--platform` explicitly, e.g., `--platform=linux/amd64`)".

(** Lines 134-229 of [action]: the options read from the flags. *)
Definition buildOptions (flags : FlagSet) : M (Options float64) :=
  IgnoreHistory <- get (GetBool flags "ignore-history") ;;
  IgnoreFileOrder <- get (GetBool flags "ignore-file-order") ;;
  IgnoreFileModeRedundantBits <- get (GetBool flags "ignore-file-mode-redundant-bits") ;;
  IgnoreFileMTime <- get (GetBool flags "ignore-file-mtime") ;;
  IgnoreFileATime <- get (GetBool flags "ignore-file-atime") ;;
  IgnoreFileCTime <- get (GetBool flags "ignore-file-ctime") ;;
  IgnoreFilePermissions <- get (GetBool flags "extra-ignore-file-permissions") ;;
  IgnoreFileMode <- get (GetBool flags "extra-ignore-file-mode") ;;
  IgnoreFileContent <- get (GetBool flags "extra-ignore-file-content") ;;
  IgnoreLayerLengthMismatch <- get (GetBool flags "extra-ignore-layer-length-mismatch") ;;
  IgnoreFiles <- check (GetStringSlice flags "extra-ignore-files") ;;
  IgnoreImageTimestamps <- get (GetBool flags "ignore-image-timestamps") ;;
  IgnoreImageName <- get (GetBool flags "ignore-image-name") ;;
  IgnoreTarFormat <- get (GetBool flags "ignore-tar-format") ;;
  CanonicalPaths <- get (GetBool flags "treat-canonical-paths-equal") ;;
  ReportFile <- get (GetString flags "report-file") ;;
  ReportFile <-
    (if bool_decide (ReportFile ≠ "") then
       log WarnLevel reportFileWarning ;;;
       r <- expandPath ReportFile ;;
       let '(ReportFile, err) := r in
       match err with
       | Some err =>
           Return (Some (Wrapped ("invalid report-file path " +:+ strconv.Quote ReportFile
                                  +:+ ": " +:+ Error err) err))
       | None => ret ReportFile
       end
     else ret ReportFile) ;;
  ReportDir <- get (GetString flags "report-dir") ;;
  ReportDir <-
    (if bool_decide (ReportDir ≠ "") then
       r <- expandPath ReportDir ;;
       let '(ReportDir, err) := r in
       match err with
       | Some err =>
           Return (Some (Wrapped ("invalid report-dir path " +:+ strconv.Quote ReportDir
                                  +:+ ": " +:+ Error err) err))
       | None => ret ReportDir
       end
     else ret ReportDir) ;;
  let handler := DefaultEventHandler in
  verbose <- get (GetBool flags "verbose") ;;
  let handler := if verbose : bool then VerboseEventHandler else handler in
  MaxScale <- check (GetFloat64 flags "max-scale") ;;
  ret {| IgnoreHistory := IgnoreHistory;
         IgnoreFileOrder := IgnoreFileOrder;
         IgnoreFileModeRedundantBits := IgnoreFileModeRedundantBits;
         IgnoreFileMTime := IgnoreFileMTime;
         IgnoreFileATime := IgnoreFileATime;
         IgnoreFileCTime := IgnoreFileCTime;
         IgnoreFilePermissions := IgnoreFilePermissions;
         IgnoreFileMode := IgnoreFileMode;
         IgnoreFileContent := IgnoreFileContent;
         IgnoreLayerLengthMismatch := IgnoreLayerLengthMismatch;
         IgnoreFiles := IgnoreFiles;
         IgnoreImageTimestamps := IgnoreImageTimestamps;
         IgnoreImageName := IgnoreImageName;
         IgnoreTarFormat := IgnoreTarFormat;
         CanonicalPaths := CanonicalPaths;
         ReportFile := ReportFile;
         ReportDir := ReportDir;
         handler := handler;
         MaxScale := MaxScale |}.

(** [fmt.Sprintf("Input %d: Image %q (%s)", i, img.Name, img.Target.Digest)] *)
Definition inputLine (i : nat) (img : Image) : string :=
  "Input " +:+ pretty i +:+ ": Image " +:+ strconv.Quote (Name img)
  +:+ " (" +:+ Digest (Target img) +:+ ")".

Definition zeroDescriptor : Descriptor :=
  {| MediaType := ""; Digest := ""; Size := 0 |}.

(** Lines 241-249: [for i := 0; i < 2; i++ { ... }], over the indices still
    to visit. *)
Fixpoint acquire (ig : ImageGetter) (args : list string) (plats : list Platform)
    (pullMode : string) (indices : list nat) (imageDescs : list Descriptor)
    : M (list Descriptor) :=
  match indices with
  | [] => ret imageDescs
  | i :: rest =>
      ref <- match args !! i with Some ref => ret ref | None => panic end ;;
      emit (CallGet ref plats pullMode) ;;;
      r <- invoke (Get ig ref plats pullMode) RetGet ;;
      img <- check r ;;
      log DebugLevel (inputLine i img) ;;;
      acquire ig args plats pullMode rest (<[i := Target img]> imageDescs)
  end.

(** Lines 253-270: the exit code chosen from the report and the error of the
    comparison, the log lines, and the exit. *)
Definition finish (report : option EventTreeNode) (err : option error) : M Empty_set :=
  let exitCode := 0%Z in
  let exitCode :=
    match report with
    | Some report => if (0 <? length (Children report))%nat then 1%Z else exitCode
    | None => exitCode
    end in
  exitCode <-
    match err with
    | Some err =>
        let err :=
          if Is_ErrUnavailable err
          then Wrapped (Error err +:+ platformHint) err
          else err in
        log ErrorLevel (Error err) ;;;
        ret 2%Z
    | None => ret exitCode
    end ;;
  (if bool_decide (exitCode ≠ 0%Z)
   then log DebugLevel ("exiting with code " +:+ pretty exitCode)
   else ret tt) ;;;
  (os_Exit exitCode : M unit) ;;;
  Return None.

(** [action(cmd, args)], with [cmd.Flags()] for the command. *)
Definition action (flags : FlagSet) (args : list string) : M Empty_set :=
  backend <- call (NewBackend flags) ;;
  plats <- check (ParsePlatformFlags flags) ;;
  log InfoLevel ("Target platforms: " +:+ fmt_v (FormatSlice plats)) ;;;
  let platMC := platforms_Any plats in
  options <- buildOptions flags ;;
  pullMode <- get (GetString flags "pull") ;;
  ig <- check (imagegetter_New backend) ;;
  imageDescs <- acquire ig args plats pullMode (seq 0 2) [zeroDescriptor; zeroDescriptor] ;;
  let contentStore := Backend_ContentStore backend in
  emit (CallDiff imageDescs platMC options) ;;;
  r <- invoke (Diff contentStore imageDescs platMC options) (fun r => RetDiff r.1 r.2) ;;
  let '(report, err) := r in
  finish report err.

(** *** Reading a trace *)

(** The messages logged at one severity, in order. *)
Definition sameLevel (l1 l2 : Level) : bool :=
  match l1, l2 with
  | ErrorLevel, ErrorLevel | WarnLevel, WarnLevel
  | InfoLevel, InfoLevel | DebugLevel, DebugLevel => true
  | _, _ => false
  end.

Fixpoint logged (level : Level) (t : list Event) : list string :=
  match t with
  | [] => []
  | Log l msg :: rest =>
      if sameLevel l level then msg :: logged level rest else logged level rest
  | _ :: rest => logged level rest
  end.

(** What the comparison returned, for each time it was invoked. *)
Fixpoint compared (t : list Event) : list (option EventTreeNode * option error) :=
  match t with
  | [] => []
  | RetDiff report err :: rest => (report, err) :: compared rest
  | _ :: rest => compared rest
  end.

(** The image work of a run: the acquisitions, what they returned, the
    per-image log lines and the invocations of the comparison, in order. *)
Definition isImageWork (e : Event) : bool :=
  match e with
  | CallGet _ _ _ | RetGet _ | CallDiff _ _ _ => true
  | Log DebugLevel msg => String.prefix "Input " msg
  | _ => false
  end.

Definition imageWork (t : list Event) : list Event := List.filter isImageWork t.

(** The flag reads of [buildOptions] that come before [report-file]. *)
Definition earlierReads (flags : FlagSet) : Prop :=
  (∀ name,
     name ∈ [ "ignore-history"; "ignore-file-order"; "ignore-file-mode-redundant-bits";
              "ignore-file-mtime"; "ignore-file-atime"; "ignore-file-ctime";
              "extra-ignore-file-permissions"; "extra-ignore-file-mode";
              "extra-ignore-file-content"; "extra-ignore-layer-length-mismatch";
              "ignore-image-timestamps"; "ignore-image-name"; "ignore-tar-format";
              "treat-canonical-paths-equal" ] →
     (GetBool flags name).2 = None)
  ∧ ∃ files, GetStringSlice flags "extra-ignore-files" = inl files.

End Action.

(** ** A concrete command line and concrete collaborators

    The theorems below hold for every flag set and for all collaborators.
    This module fixes one instance of each, to run the definitions on. *)
Module Demo.

(** Splitting at commas, for the [stringSlice] flag of the example. *)
Fixpoint splitComma (cur : string) (s : string) : list string :=
  match s with
  | EmptyString => [cur]
  | String c rest =>
      if bool_decide (c = ","%char) then cur :: splitComma "" rest
      else splitComma (cur +:+ String c EmptyString) rest
  end.

Definition stringSliceValue : Value (list string * bool) := {|
  Value_String '(l, _) := "[" +:+ String.concat "," l +:+ "]";
  Value_Set '(l, changed) val :=
    let rv := splitComma "" val in
    ((if changed : bool then (l ++ rv)%list else rv, true), None);
  Value_Type _ := "stringSlice"
|}.

Definition isDecimal (s : string) : bool :=
  bool_decide (s ≠ "")
  && forallb (fun c => bool_decide (c ∈ String.list_ascii_of_string "0123456789."))
             (String.list_ascii_of_string s).

(** A [float64] flag whose numbers are kept as their decimal text. *)
Definition float64Value : Value string := {|
  Value_String v := v;
  Value_Set _ val :=
    if isDecimal val then (val, None)
    else ("0", Some (Opaque ("strconv.ParseFloat: parsing " +:+ strconv.Quote val
                             +:+ ": invalid syntax")));
  Value_Type _ := "float64"
|}.

(** The flags registered by [NewCommand], at their default values. *)
Definition defaults : FlagSet :=
  list_to_map
    ((fun name => (name, boolFlag false false)) <$> boolFlagNames)
  ∪ list_to_map
    [ ("extra-ignore-files",
       {| state := list string * bool; methods := stringSliceValue;
          value := ([], false); Changed := false |});
      ("report-file", stringFlag "" false);
      ("report-dir", stringFlag "" false);
      ("pull", stringFlag "missing" false);
      ("max-scale",
       {| state := string; methods := float64Value; value := "1"; Changed := false |}) ].

(** The flag set after parsing [--name=value] arguments. *)
Definition commandLine (given : list (string * string)) : FlagSet :=
  foldl (fun flags nv => (FlagSet_Set flags nv.1 nv.2).1) defaults given.

(** The outside world of the example: the home directory, if the
    environment has one, and the images that can be resolved. *)
Record world : Type := {
  HOME : option string;
  images : list (string * Image);
  missing : list string
}.

Fixpoint lookupImage (ref : string) (l : list (string * Image)) : option Image :=
  match l with
  | [] => None
  | (name, img) :: rest => if bool_decide (name = ref) then Some img else lookupImage ref rest
  end.

(** Modelled from the spec: [localpathutil.Expand] is not among the sources.
    A path [~] or [~/...] resolves under the home directory of the invoking
    user, an absolute path is kept, and a path that cannot be expanded fails.
    The spec does not say which path a failed expansion returns next to its
    error; this one returns the empty path, the zero value of Go. *)
Definition expandHome (w : world) (orig : string) : string * option error :=
  match orig with
  | EmptyString => ("", Some (Opaque "empty path"))
  | String "~" rest =>
      match HOME w with
      | None => ("", Some (Opaque "$HOME is not defined"))
      | Some home =>
          match rest with
          | EmptyString => (home, None)
          | String "/" _ => (home +:+ rest, None)
          | _ => ("", Some (Opaque ("unexpandable path " +:+ strconv.Quote orig)))
          end
      end
  | String "/" _ => (orig, None)
  | _ => ("/work/" +:+ orig, None)
  end.

Definition collaborators : Collaborators := {|
  World := world;
  float64 := string;
  Backend := unit;
  Platform := string;
  MatchComparer := list string;
  ContentStore := unit;
  ImageGetter := unit;
  stringSliceConv sval :=
    if bool_decide (sval = "[]") then inl []
    else inr (Opaque "unsupported list");
  float64Conv sval :=
    if isDecimal sval then inl sval
    else inr (Opaque ("strconv.ParseFloat: parsing " +:+ strconv.Quote sval
                      +:+ ": invalid syntax"));
  NewBackend _ w := (inl tt, w);
  Backend_ContentStore _ := tt;
  ParsePlatformFlags _ := inl ["linux/amd64"];
  FormatSlice plats := plats;
  platforms_Any plats := plats;
  Expand := expandHome;
  imagegetter_New _ := inl tt;
  Get _ ref _ _ w :=
    match lookupImage ref (images w) with
    | Some img => (inl img, w)
    | None => (inr (Opaque (ref +:+ ": not found")), w)
    end;
  Diff _ imageDescs _ _ w :=
    match imageDescs with
    | [d0; d1] =>
        if bool_decide (Digest d0 ∈ missing w ∨ Digest d1 ∈ missing w)
        then (None, Some (Wrapped "no manifest for the platform: unavailable" ErrUnavailable), w)
        else if bool_decide (Digest d0 = Digest d1) then (Some (Node "/" []), None, w)
        else (Some (Node "/" [Node "/manifest" []]), None, w)
    | _ => (None, Some (Opaque "two images expected"), w)
    end
|}.

Definition alpine_3_18_2 : Image :=
  {| Name := "docker.io/library/alpine:3.18.2";
     Target := {| MediaType := "application/vnd.oci.image.index.v1+json";
                  Digest := "sha256:82d1e9d7ed48a7523bdebc18cf6290bdb97b82302a8a9c27d4fe885949ea94d1";
                  Size := 1638 |} |}.

Definition alpine_3_18_3 : Image :=
  {| Name := "docker.io/library/alpine:3.18.3";
     Target := {| MediaType := "application/vnd.oci.image.index.v1+json";
                  Digest := "sha256:7144f7bab3d4c2648d7e59409f15ec52a18006a128c733fcff20d3a4a54ba44a";
                  Size := 1638 |} |}.

Definition withHome : world :=
  {| HOME := Some "/home/user";
     images := [("alpine:3.18.2", alpine_3_18_2); ("alpine:3.18.3", alpine_3_18_3)];
     missing := [] |}.

Definition withoutHome : world :=
  {| HOME := None;
     images := [("alpine:3.18.2", alpine_3_18_2); ("alpine:3.18.3", alpine_3_18_3)];
     missing := [] |}.

Definition withoutContent : world :=
  {| HOME := Some "/home/user";
     images := [("alpine:3.18.2", alpine_3_18_2); ("alpine:3.18.3", alpine_3_18_3)];
     missing := [Digest (Target alpine_3_18_3)] |}.

End Demo.

(** ** What a run has handed to its collaborators *)

Arguments IgnoreHistory {float64}.
Arguments IgnoreFileOrder {float64}.
Arguments IgnoreFileModeRedundantBits {float64}.
Arguments IgnoreFileMTime {float64}.
Arguments IgnoreFileATime {float64}.
Arguments IgnoreFileCTime {float64}.
Arguments IgnoreFilePermissions {float64}.
Arguments IgnoreFileMode {float64}.
Arguments IgnoreFileContent {float64}.
Arguments IgnoreLayerLengthMismatch {float64}.
Arguments IgnoreFiles {float64}.
Arguments IgnoreImageTimestamps {float64}.
Arguments IgnoreImageName {float64}.
Arguments IgnoreTarFormat {float64}.
Arguments CanonicalPaths {float64}.
Arguments handler {float64}.
Arguments MaxScale {float64}.

Section Observations.
Context {X : Collaborators}.

(** The arguments of each invocation of the comparison, in order. *)
Fixpoint comparisons (t : list Event)
    : list (list Descriptor * MatchComparer * Options float64) :=
  match t with
  | [] => []
  | CallDiff imageDescs platMC options :: rest =>
      (imageDescs, platMC, options) :: comparisons rest
  | _ :: rest => comparisons rest
  end.

(** The arguments of each acquisition, in order. *)
Fixpoint acquisitions (t : list Event) : list (string * list Platform * string) :=
  match t with
  | [] => []
  | CallGet ref plats pullMode :: rest => (ref, plats, pullMode) :: acquisitions rest
  | _ :: rest => acquisitions rest
  end.

(** The value of a boolean flag as [action] reads it. *)
Definition flagValue (flags : FlagSet) (name : string) : bool := (GetBool flags name).1.

End Observations.

(** More runs of the example. *)
Module Runs.

Definition images : list string := ["alpine:3.18.2"; "alpine:3.18.3"].

(** [diffoci diff --verbose --report-dir=~/diff --extra-ignore-file-mode] *)
Definition verboseFlags : FlagSet :=
  Demo.commandLine
    [("verbose", "true"); ("report-dir", "~/diff"); ("extra-ignore-file-mode", "true")].

Definition verboseRun := action (X := Demo.collaborators) verboseFlags images Demo.withHome.

(** [diffoci diff --semantic], through [PreRunE] and [action]. *)
Definition semanticFlags : FlagSet := Demo.commandLine [("semantic", "true")].

Definition semanticRun :=
  action (X := Demo.collaborators) (PreRunE semanticFlags).1 images Demo.withHome.

(** No flag given. *)
Definition plainRun :=
  action (X := Demo.collaborators) (Demo.commandLine []) images Demo.withHome.

(** A flag set in which [ignore-tar-format] has not been registered. *)
Definition withoutTarFormat : FlagSet := delete "ignore-tar-format" semanticFlags.


End Runs.

(** * Properties *)

(** ** The flag set under [Set] and [GetBool] *)
Section FlagSetFacts.
Implicit Types (flags : FlagSet) (name k : string).

Lemma GetBool_ext flags flags' name :
  flags !! name = flags' !! name → GetBool flags name = GetBool flags' name.
Proof. unfold GetBool, getFlagType. by intros ->. Qed.

Lemma GetBool_boolFlag flags name b changed :
  flags !! name = Some (boolFlag b changed) → GetBool flags name = (b, None).
Proof. unfold GetBool, getFlagType. intros ->. by destruct b. Qed.

Lemma FlagSet_Set_frame flags name val k :
  k ≠ name → (FlagSet_Set flags name val).1 !! k = flags !! k.
Proof.
  intros Hne. unfold FlagSet_Set.
  destruct (flags !! name) as [flag|]; [|done].
  destruct (Value_Set _ _ _) as [v [e|]]; simpl; by rewrite lookup_insert_ne.
Qed.

Lemma FlagSet_Set_true flags name b changed :
  flags !! name = Some (boolFlag b changed) →
  FlagSet_Set flags name "true" = (<[name := boolFlag true true]> flags, None).
Proof. unfold FlagSet_Set. by intros ->. Qed.

(** [Set] keeps a [boolValue] flag a [boolValue] flag, whatever it is given. *)
Lemma FlagSet_Set_isBoolFlag flags name val k :
  isBoolFlag flags k → isBoolFlag (FlagSet_Set flags name val).1 k.
Proof.
  intros (b & c & H). destruct (decide (k = name)) as [->|Hne].
  - unfold isBoolFlag, FlagSet_Set. rewrite H. simpl.
    destruct (strconv.ParseBool val) as [v [e|]]; simpl;
      rewrite lookup_insert_eq; by eexists _, _.
  - unfold isBoolFlag. rewrite FlagSet_Set_frame by done. by exists b, c.
Qed.

Lemma setEach_frame names : ∀ flags k,
  k ∉ names → (setEach flags names).1 !! k = flags !! k.
Proof.
  induction names as [|n names IH]; intros flags k Hk; [done|].
  apply not_elem_of_cons in Hk as [Hne Hk]. simpl.
  pose proof (FlagSet_Set_frame flags n "true" k Hne) as Hset.
  destruct (FlagSet_Set flags n "true") as [flags1 [e|]]; simpl in *; [done|].
  by rewrite IH.
Qed.

Lemma setEach_bool names : ∀ flags,
  (∀ n, n ∈ names → isBoolFlag flags n) →
  ∃ flags', setEach flags names = (flags', None) ∧
    ∀ k, flags' !! k =
         if bool_decide (k ∈ names) then Some (boolFlag true true) else flags !! k.
Proof.
  induction names as [|n names IH]; intros flags Hreg.
  - exists flags. split; [done|]. intros k.
    rewrite bool_decide_eq_false_2; [done|apply not_elem_of_nil].
  - destruct (Hreg n) as (b & c & Hn); [apply list_elem_of_here|].
    simpl. rewrite (FlagSet_Set_true _ _ _ _ Hn).
    destruct (IH (<[n := boolFlag true true]> flags)) as (flags' & Hrun & Hlook).
    { intros m Hm. unfold isBoolFlag. destruct (decide (m = n)) as [->|Hne].
      - rewrite lookup_insert_eq. by eexists _, _.
      - rewrite lookup_insert_ne by done. by apply Hreg, list_elem_of_further. }
    exists flags'. split; [done|]. intros k. rewrite Hlook.
    destruct (decide (k ∈ names)) as [Hin|Hin].
    + rewrite !bool_decide_eq_true_2; [done|by apply list_elem_of_further|done].
    + rewrite (bool_decide_eq_false_2 _ Hin).
      destruct (decide (k = n)) as [->|Hne].
      * rewrite lookup_insert_eq, bool_decide_eq_true_2; [done|apply list_elem_of_here].
      * rewrite lookup_insert_ne by done.
        rewrite bool_decide_eq_false_2; [done|by apply not_elem_of_cons].
Qed.

End FlagSetFacts.

(** ** Alias resolution *)
Section AliasResolution.
Implicit Types (flags : FlagSet) (name k : string) (a b : Alias).

Lemma aliasFlagNames_registered a n : n ∈ aliasFlagNames a → n ∈ boolFlagNames.
Proof.
  revert n. apply Forall_forall.
  destruct a; apply (bool_decide_unpack _); by vm_compute.
Qed.

(** No alias flag is in an expansion list. *)
Lemma aliasFlag_not_written a b : aliasFlag a ∉ aliasFlagNames b.
Proof. destruct a, b; apply (bool_decide_unpack _); by vm_compute. Qed.

Lemma PreRunE_runRules flags :
  PreRunE flags = runRules [Semantic; IgnoreTimestamps; IgnoreFileTimestamps] flags.
Proof. reflexivity. Qed.

Lemma rule_frame a flags k :
  writes flags k a = false → (rule a flags).1 !! k = flags !! k.
Proof.
  unfold writes, rule, expand. destruct (GetBool flags (aliasFlag a)).1; simpl; [|done].
  intros Hk. apply setEach_frame. by apply bool_decide_eq_false in Hk.
Qed.

Lemma rule_alias a b flags : (rule a flags).1 !! aliasFlag b = flags !! aliasFlag b.
Proof.
  apply rule_frame. unfold writes.
  rewrite (bool_decide_eq_false_2 _ (aliasFlag_not_written b a)).
  apply andb_false_r.
Qed.

Lemma writes_ext flags flags' k a :
  flags !! aliasFlag a = flags' !! aliasFlag a → writes flags k a = writes flags' k a.
Proof. intros H. unfold writes. by rewrite (GetBool_ext _ _ _ H). Qed.

(** Frame of any sequence of rules, on any flag set: a flag that no rule of
    the sequence writes is left as it was, also when a rule fails. *)
Lemma runRules_frame order : ∀ flags0 flags k,
  (∀ b, flags !! aliasFlag b = flags0 !! aliasFlag b) →
  existsb (writes flags0 k) order = false →
  (runRules order flags).1 !! k = flags !! k.
Proof.
  induction order as [|a order IH]; intros flags0 flags k Hal Hk; [done|].
  simpl in Hk. apply orb_false_iff in Hk as [Ha Hrest].
  rewrite <- (writes_ext flags flags0 k a (Hal a)) in Ha.
  pose proof (rule_frame a flags k Ha) as Hfr.
  assert (∀ b, (rule a flags).1 !! aliasFlag b = flags0 !! aliasFlag b) as Hal1.
  { intros b. by rewrite rule_alias. }
  simpl. destruct (rule a flags) as [flags1 [e|]]; simpl in *; [done|].
  by rewrite (IH flags0 flags1 k Hal1 Hrest).
Qed.

Lemma registered_rule_targets flags a n :
  registered flags → n ∈ aliasFlagNames a → isBoolFlag flags n.
Proof. intros Hreg Hn. by apply Hreg, (aliasFlagNames_registered a). Qed.

(** On a registered flag set no rule fails, and the flag set a sequence of
    rules leaves behind is read off the raw one. *)
Lemma runRules_registered order : ∀ flags0 flags,
  registered flags →
  (∀ b, flags !! aliasFlag b = flags0 !! aliasFlag b) →
  ∃ flags', runRules order flags = (flags', None) ∧
    ∀ k, flags' !! k =
         if existsb (writes flags0 k) order then Some (boolFlag true true) else flags !! k.
Proof.
  induction order as [|a order IH]; intros flags0 flags Hreg Hal.
  - by exists flags.
  - simpl. unfold rule at 1, expand.
    assert (GetBool flags0 (aliasFlag a) = GetBool flags (aliasFlag a)) as Hw.
    { symmetry. apply GetBool_ext, Hal. }
    destruct (GetBool flags (aliasFlag a)).1 eqn:Hread.
    + destruct (setEach_bool (aliasFlagNames a) flags) as (flags1 & Hrun & Hlook).
      { intros n Hn. by apply (registered_rule_targets flags a). }
      rewrite Hrun. simpl.
      destruct (IH flags0 flags1) as (flags' & Hrest & Hlook').
      { intros n Hn. unfold isBoolFlag. rewrite Hlook.
        destruct (bool_decide (n ∈ aliasFlagNames a)); [by eexists _, _|by apply Hreg]. }
      { intros b. rewrite Hlook.
        by rewrite (bool_decide_eq_false_2 _ (aliasFlag_not_written b a)). }
      exists flags'. split; [done|]. intros k. rewrite Hlook', Hlook.
      assert (writes flags0 k a = bool_decide (k ∈ aliasFlagNames a)) as ->.
      { unfold writes. by rewrite Hw, Hread. }
      by destruct (bool_decide (k ∈ aliasFlagNames a)), (existsb _ order).
    + simpl. destruct (IH flags0 flags Hreg Hal) as (flags' & Hrest & Hlook').
      exists flags'. split; [done|]. intros k. rewrite Hlook'.
      assert (writes flags0 k a = false) as ->; [|done].
      unfold writes. by rewrite Hw, Hread.
Qed.

Lemma PreRunE_registered flags :
  registered flags →
  ∃ flags', PreRunE flags = (flags', None) ∧
    ∀ k, flags' !! k =
         if existsb (writes flags k) [Semantic; IgnoreTimestamps; IgnoreFileTimestamps]
         then Some (boolFlag true true) else flags !! k.
Proof. intros Hreg. rewrite PreRunE_runRules. by apply runRules_registered. Qed.

Lemma existsb_writes_perm flags k (order order' : list Alias) :
  order ≡ₚ order' → existsb (writes flags k) order = existsb (writes flags k) order'.
Proof.
  induction 1 as [|x l l' _ IH|x y l|l l' l'' _ IH1 _ IH2]; simpl.
  - done.
  - by rewrite IH.
  - by destruct (writes flags k x), (writes flags k y).
  - by rewrite IH1.
Qed.

End AliasResolution.

Section AliasClaims.
Implicit Types (flags : FlagSet) (name k : string) (a b : Alias).

Lemma rule_skipped a flags :
  (GetBool flags (aliasFlag a)).1 = false → rule a flags = (flags, None).
Proof. unfold rule, expand. by intros ->. Qed.

Lemma GetBool_failed flags name :
  (GetBool flags name).2 ≠ None → (GetBool flags name).1 = false.
Proof. unfold GetBool. by destruct (getFlagType flags name "bool" boolConv). Qed.

(** A rule whose alias reads false can be dropped from any sequence. *)
Lemma runRules_drop a order : ∀ flags,
  (GetBool flags (aliasFlag a)).1 = false →
  runRules order flags = runRules (filter (λ b, b ≠ a) order) flags.
Proof.
  induction order as [|a0 order IH]; intros flags Hread; [done|].
  destruct (decide (a0 = a)) as [->|Hne].
  - rewrite filter_cons_False by (by intros ?). simpl.
    rewrite (rule_skipped a flags Hread). simpl. by apply IH.
  - rewrite filter_cons_True by done. simpl.
    pose proof (rule_alias a0 a flags) as Hal.
    destruct (rule a0 flags) as [flags1 [e|]]; simpl in *; [done|].
    apply IH. by rewrite (GetBool_ext flags1 flags (aliasFlag a) Hal).
Qed.

Lemma not_written_frame name flags :
  (∀ a, writes flags name a = false) → (PreRunE flags).1 !! name = flags !! name.
Proof.
  intros H. rewrite PreRunE_runRules. apply (runRules_frame _ flags); [done|].
  simpl. by rewrite !H.
Qed.

(** C2: on every raw flag set of the command, when [semantic] reads true each
    of the ten flags ignore-history, ignore-file-order,
    ignore-file-mode-redundant-bits, ignore-file-mtime, ignore-file-atime,
    ignore-file-ctime, ignore-image-timestamps, ignore-image-name,
    ignore-tar-format and treat-canonical-paths-equal reads true after
    [PreRunE], whatever value was supplied for it.  Alias resolution never
    sets a flag to false: a flag it changed reads true, a flag that read true
    still does, and the resolution returns no error. *)
Theorem C2_semantic_sets_ten_flags flags :
  registered flags →
  (GetBool flags "semantic" = (true, None) →
   ∀ name,
     name ∈ [ "ignore-history"; "ignore-file-order"; "ignore-file-mode-redundant-bits";
              "ignore-file-mtime"; "ignore-file-atime"; "ignore-file-ctime";
              "ignore-image-timestamps"; "ignore-image-name"; "ignore-tar-format";
              "treat-canonical-paths-equal" ] →
     GetBool (PreRunE flags).1 name = (true, None))
  ∧ (∀ name, (PreRunE flags).1 !! name ≠ flags !! name →
             GetBool (PreRunE flags).1 name = (true, None))
  ∧ (∀ name, GetBool flags name = (true, None) →
             GetBool (PreRunE flags).1 name = (true, None))
  ∧ (PreRunE flags).2 = None.
Proof.
  intros Hreg. destruct (PreRunE_registered flags Hreg) as (flags' & Hrun & Hlook).
  rewrite Hrun. simpl. split; [|split; [|split]]; [| | |done].
  - intros Hsem name Hname. apply (GetBool_boolFlag _ _ true true).
    rewrite Hlook. simpl. unfold writes at 1. simpl aliasFlag. rewrite Hsem. simpl.
    change (name ∈ semanticFlagNames) in Hname.
    by rewrite (bool_decide_eq_true_2 _ Hname).
  - intros name Hch. pose proof (Hlook name) as Hn.
    destruct (existsb _ _); [by apply (GetBool_boolFlag _ _ true true)|].
    by rewrite Hn in Hch.
  - intros name Hraw. pose proof (Hlook name) as Hn.
    destruct (existsb _ _).
    + by apply (GetBool_boolFlag _ _ true true).
    + by rewrite (GetBool_ext _ _ _ Hn).
Qed.

(** C3: on every raw flag set of the command, when [ignore-timestamps] reads
    true the flags ignore-file-mtime, ignore-file-atime, ignore-file-ctime
    and ignore-image-timestamps read true after [PreRunE]; when
    [ignore-file-timestamps] reads true the three file-timestamp flags read
    true, and it is only those three that this alias writes: with the two
    other aliases false every other flag, ignore-image-timestamps among
    them, keeps what was supplied. *)
Theorem C3_timestamp_aliases flags :
  registered flags →
  (GetBool flags "ignore-timestamps" = (true, None) →
   ∀ name,
     name ∈ [ "ignore-file-mtime"; "ignore-file-atime"; "ignore-file-ctime";
              "ignore-image-timestamps" ] →
     GetBool (PreRunE flags).1 name = (true, None))
  ∧ (GetBool flags "ignore-file-timestamps" = (true, None) →
     ∀ name,
       name ∈ [ "ignore-file-mtime"; "ignore-file-atime"; "ignore-file-ctime" ] →
       GetBool (PreRunE flags).1 name = (true, None))
  ∧ (GetBool flags "ignore-file-timestamps" = (true, None) →
     GetBool flags "semantic" = (false, None) →
     GetBool flags "ignore-timestamps" = (false, None) →
     (PreRunE flags).1 !! "ignore-image-timestamps" = flags !! "ignore-image-timestamps"
     ∧ ∀ name,
         name ∉ [ "ignore-file-mtime"; "ignore-file-atime"; "ignore-file-ctime" ] →
         (PreRunE flags).1 !! name = flags !! name).
Proof.
  intros Hreg. destruct (PreRunE_registered flags Hreg) as (flags' & Hrun & Hlook).
  rewrite Hrun. simpl. split; [|split; [|intros Hal Hsem Hts; split]].
  - intros Hal name Hname. apply (GetBool_boolFlag _ _ true true).
    rewrite Hlook. simpl. unfold writes at 2. simpl aliasFlag. rewrite Hal. simpl.
    change (name ∈ ignoreTimestampsFlagNames) in Hname.
    rewrite (bool_decide_eq_true_2 _ Hname). by rewrite orb_true_r.
  - intros Hal name Hname. apply (GetBool_boolFlag _ _ true true).
    rewrite Hlook. simpl. unfold writes at 3. simpl aliasFlag. rewrite Hal. simpl.
    change (name ∈ ignoreFileTimestampsFlagNames) in Hname.
    rewrite (bool_decide_eq_true_2 _ Hname). by rewrite !orb_true_r.
  - rewrite Hlook. simpl. unfold writes. simpl aliasFlag.
    rewrite Hsem, Hts, Hal. cbn [fst andb orb].
    by replace (bool_decide _) with false by (by vm_compute).
  - intros name Hname. rewrite Hlook. simpl. unfold writes. simpl aliasFlag.
    rewrite Hsem, Hts, Hal. simpl.
    change (name ∉ ignoreFileTimestampsFlagNames) in Hname.
    by rewrite (bool_decide_eq_false_2 _ Hname).
Qed.

(** C4: on every raw flag set of the command and for every order of the three
    alias rules, running the rules in that order leaves the same flag set,
    and returns the same error, as [PreRunE], which runs them in the order
    semantic, ignore-timestamps, ignore-file-timestamps. *)
Theorem C4_alias_order_irrelevant flags (order : list Alias) :
  registered flags →
  order ≡ₚ [Semantic; IgnoreTimestamps; IgnoreFileTimestamps] →
  runRules order flags = PreRunE flags.
Proof.
  intros Hreg Hperm.
  destruct (runRules_registered order flags flags Hreg) as (flags1 & Hrun1 & Hlook1); [done|].
  destruct (PreRunE_registered flags Hreg) as (flags2 & Hrun2 & Hlook2).
  rewrite Hrun1, Hrun2. f_equal. apply map_eq. intros k.
  by rewrite Hlook1, Hlook2, (existsb_writes_perm flags k _ _ Hperm).
Qed.

(** C9: when reading an alias flag (semantic, ignore-timestamps or
    ignore-file-timestamps) fails, the error is dropped and the alias counts
    as false: its block changes nothing and returns no error, and [PreRunE]
    does exactly what the two other rules do. *)
Theorem C9_failed_alias_read_skipped flags a :
  (GetBool flags (aliasFlag a)).2 ≠ None →
  (GetBool flags (aliasFlag a)).1 = false
  ∧ rule a flags = (flags, None)
  ∧ PreRunE flags =
    runRules (filter (λ b, b ≠ a) [Semantic; IgnoreTimestamps; IgnoreFileTimestamps]) flags.
Proof.
  intros Hfail. pose proof (GetBool_failed _ _ Hfail) as Hread.
  split; [done|]. split; [by apply rule_skipped|].
  rewrite PreRunE_runRules. by apply runRules_drop.
Qed.

(** C10: on every flag set, [PreRunE] changes only flags in the expansion
    list of an alias that reads true; every other flag keeps the flag it had,
    value and changed mark.  In particular extra-ignore-file-permissions,
    extra-ignore-file-mode, extra-ignore-file-content,
    extra-ignore-layer-length-mismatch, extra-ignore-files, verbose,
    report-file, report-dir, pull and max-scale, and the three alias flags,
    are never changed. *)
Theorem C10_alias_resolution_frame flags :
  (∀ name, name ∉ expandedNames flags → (PreRunE flags).1 !! name = flags !! name)
  ∧ (∀ name,
       name ∈ [ "extra-ignore-file-permissions"; "extra-ignore-file-mode";
                "extra-ignore-file-content"; "extra-ignore-layer-length-mismatch";
                "extra-ignore-files"; "verbose"; "report-file"; "report-dir"; "pull";
                "max-scale"; "semantic"; "ignore-timestamps"; "ignore-file-timestamps" ] →
       (PreRunE flags).1 !! name = flags !! name).
Proof.
  split.
  - intros name Hname. apply not_written_frame. unfold expandedNames in Hname.
    apply not_elem_of_app in Hname as [H1 Hname].
    apply not_elem_of_app in Hname as [H2 H3].
    intros []; unfold writes; simpl aliasFlag; simpl aliasFlagNames.
    + destruct (GetBool flags "semantic").1; [|done].
      by rewrite (bool_decide_eq_false_2 _ H1).
    + destruct (GetBool flags "ignore-timestamps").1; [|done].
      by rewrite (bool_decide_eq_false_2 _ H2).
    + destruct (GetBool flags "ignore-file-timestamps").1; [|done].
      by rewrite (bool_decide_eq_false_2 _ H3).
  - apply Forall_forall.
    repeat (apply Forall_cons; split;
            [apply not_written_frame; intros a; unfold writes;
             replace (bool_decide _) with false by (by destruct a; vm_compute);
             apply andb_false_r|]).
    constructor.
Qed.

End AliasClaims.

(** ** The example command line *)

Lemma defaults_registered : registered Demo.defaults.
Proof.
  unfold registered. apply Forall_forall.
  repeat (apply Forall_cons; split; [by exists false, false|]).
  constructor.
Qed.

(** Whatever the command line supplies, the flags registered as booleans stay
    boolean flags. *)
Lemma commandLine_registered given : registered (Demo.commandLine given).
Proof.
  unfold Demo.commandLine. generalize Demo.defaults defaults_registered.
  induction given as [|nv given IH]; intros flags Hreg; [done|].
  simpl. apply IH. intros name Hname. by apply FlagSet_Set_isBoolFlag, Hreg.
Qed.

Lemma C2_witness :
  let flags := Demo.commandLine [("semantic", "true"); ("ignore-history", "false")] in
  GetBool flags "semantic" = (true, None)
  ∧ GetBool flags "ignore-history" = (false, None)
  ∧ GetBool (PreRunE flags).1 "ignore-history" = (true, None).
Proof.
  intros flags. split; [by vm_compute|]. split; [by vm_compute|].
  apply (proj1 (C2_semantic_sets_ten_flags flags (commandLine_registered _))).
  - by vm_compute.
  - apply list_elem_of_here.
Defined.

Lemma C3_witness :
  let flagsA := Demo.commandLine [("ignore-timestamps", "true")] in
  let flagsB := Demo.commandLine [("ignore-file-timestamps", "true")] in
  GetBool (PreRunE flagsA).1 "ignore-image-timestamps" = (true, None)
  ∧ GetBool (PreRunE flagsB).1 "ignore-file-ctime" = (true, None)
  ∧ (PreRunE flagsB).1 !! "ignore-image-timestamps" = flagsB !! "ignore-image-timestamps".
Proof.
  intros flagsA flagsB.
  destruct (C3_timestamp_aliases flagsA (commandLine_registered _)) as (HA & _ & _).
  destruct (C3_timestamp_aliases flagsB (commandLine_registered _)) as (_ & HB & HB').
  split; [|split].
  - apply HA; [by vm_compute|]. do 3 apply list_elem_of_further. apply list_elem_of_here.
  - apply HB; [by vm_compute|]. do 2 apply list_elem_of_further. apply list_elem_of_here.
  - destruct HB' as [H _]; [by vm_compute..|exact H].
Defined.

Lemma C4_witness :
  let flags := Demo.commandLine [("semantic", "true"); ("ignore-timestamps", "true")] in
  runRules [IgnoreFileTimestamps; Semantic; IgnoreTimestamps] flags = PreRunE flags.
Proof.
  intros flags. apply C4_alias_order_irrelevant.
  - apply commandLine_registered.
  - exact (Permutation_app_comm [IgnoreFileTimestamps] [Semantic; IgnoreTimestamps]).
Defined.

Lemma C9_witness :
  let flags := <["semantic" := stringFlag "yes" false]> Demo.defaults in
  (GetBool flags "semantic").2 ≠ None ∧ rule Semantic flags = (flags, None).
Proof.
  intros flags.
  assert ((GetBool flags (aliasFlag Semantic)).2 ≠ None) as H by (by vm_compute).
  split; [exact H|]. exact (proj1 (proj2 (C9_failed_alias_read_skipped flags Semantic H))).
Defined.

Lemma C10_witness :
  let flags := Demo.commandLine [("semantic", "true"); ("verbose", "true")] in
  ("verbose" ∉ expandedNames flags)
  ∧ (PreRunE flags).1 !! "verbose" = flags !! "verbose".
Proof.
  intros flags.
  assert ("verbose" ∉ expandedNames flags) as H.
  { apply (bool_decide_unpack _). by vm_compute. }
  split; [exact H|]. exact (proj1 (C10_alias_resolution_frame flags) "verbose" H).
Defined.

(** ** Running [action] step by step *)
Section Runs.
Context {X : Collaborators}.

Lemma ensures_run {A : Type} (m : M A) w (P : Res A → list Event → Prop) :
  ensures m w (λ r _ t, P r t) → P (m w).1.1 (m w).2.
Proof. unfold ensures. by destruct (m w) as [[r w1] t]. Qed.

Lemma ensures_bind {A B : Type} (m : M A) (k : A → M B) w Q :
  ensures m w (λ r w1 t1,
    match r with
    | Val a => ensures (k a) w1 (λ r2 w2 t2, Q r2 w2 (t1 ++ t2)%list)
    | Stop o => Q (Stop o) w1 t1
    end) →
  ensures (bind m k) w Q.
Proof.
  unfold ensures, bind. destruct (m w) as [[[a|o] w1] t1]; [|done].
  by destruct (k a w1) as [[r2 w2] t2].
Qed.

Lemma ensures_ret {A : Type} (a : A) w Q : Q (Val a) w [] → ensures (ret a) w Q.
Proof. done. Qed.

Lemma ensures_Return {A : Type} err w (Q : Res A → World → list Event → Prop) :
  Q (Stop (Returned err)) w [] → ensures (Return err) w Q.
Proof. done. Qed.

Lemma ensures_os_Exit {A : Type} code w (Q : Res A → World → list Event → Prop) :
  Q (Stop (Exited code)) w [] → ensures (os_Exit code) w Q.
Proof. done. Qed.

Lemma ensures_panic {A : Type} w (Q : Res A → World → list Event → Prop) :
  Q (Stop Panicked) w [] → ensures panic w Q.
Proof. done. Qed.

Lemma ensures_log level msg w Q : Q (Val tt) w [Log level msg] → ensures (log level msg) w Q.
Proof. done. Qed.

Lemma ensures_emit e w Q : Q (Val tt) w [e] → ensures (emit e) w Q.
Proof. done. Qed.

Lemma ensures_check {A : Type} (r : A + error) w Q :
  (∀ a, r = inl a → Q (Val a) w []) →
  (∀ err, r = inr err → Q (Stop (Returned (Some err))) w []) →
  ensures (check r) w Q.
Proof. intros Hok Herr. destruct r as [a|err]; [by apply Hok|by apply Herr]. Qed.

Lemma ensures_get {A : Type} (r : A * option error) w Q :
  (∀ a, r = (a, None) → Q (Val a) w []) →
  (∀ a err, r = (a, Some err) → Q (Stop (Returned (Some err))) w []) →
  ensures (get r) w Q.
Proof. intros Hok Herr. destruct r as [a [err|]]; [by eapply Herr|by apply Hok]. Qed.

Lemma ensures_call {A : Type} (f : World → (A + error) * World) w Q :
  (∀ a w1, f w = (inl a, w1) → Q (Val a) w1 []) →
  (∀ err w1, f w = (inr err, w1) → Q (Stop (Returned (Some err))) w1 []) →
  ensures (call f) w Q.
Proof.
  intros Hok Herr. unfold ensures, call.
  destruct (f w) as [[a|err] w1]; [by apply Hok|by apply Herr].
Qed.

Lemma ensures_invoke {A : Type} (f : World → A * World) returned w Q :
  (∀ a w1, f w = (a, w1) → Q (Val a) w1 [returned a]) →
  ensures (invoke f returned) w Q.
Proof. intros H. unfold ensures, invoke. destruct (f w) as [a w1]. by apply H. Qed.

Lemma ensures_expandPath path w Q :
  Q (Val (Expand w path)) w [] → ensures (expandPath path) w Q.
Proof. done. Qed.

End Runs.

(** One step of the run in the goal. *)
Ltac exec1 :=
  cbv beta iota zeta;
  lazymatch goal with
  | |- ensures (bind _ _) _ _ => apply ensures_bind
  | |- ensures (ret _) _ _ => apply ensures_ret
  | |- ensures (log _ _) _ _ => apply ensures_log
  | |- ensures (emit _) _ _ => apply ensures_emit
  | |- ensures (Return _) _ _ => apply ensures_Return
  | |- ensures (os_Exit _) _ _ => apply ensures_os_Exit
  | |- ensures panic _ _ => apply ensures_panic
  | |- ensures (get _) _ _ => apply ensures_get; [intros ? ?|intros ? ? ?]
  | |- ensures (check _) _ _ => apply ensures_check; [intros ? ?|intros ? ?]
  | |- ensures (call _) _ _ => apply ensures_call; [intros ? ? ?|intros ? ? ?]
  | |- ensures (invoke _ _) _ _ => apply ensures_invoke; intros ? ? ?
  | |- ensures (expandPath _) _ _ => apply ensures_expandPath
  | |- ensures (action _ _) _ _ => unfold action
  | |- ensures (buildOptions _) _ _ => unfold buildOptions
  | |- ensures (finish _ _) _ _ => unfold finish
  | |- ensures (acquire _ _ _ _ _ _) _ _ => cbn [acquire seq]
  | |- ensures (match (?x :: ?l) !! ?i with _ => _ end) _ _ =>
      let v := eval cbn in ((x :: l) !! i) in change ((x :: l) !! i) with v
  | |- ensures (if ?b then _ else _) _ _ => destruct b eqn:?
  | |- ensures (match ?x with _ => _ end) _ _ => destruct x eqn:?
  end.

Ltac exec := repeat exec1.

(** Turn a goal about the outcome and the trace of the run [m w] into a goal
    about the run. *)
Ltac by_run m w :=
  cbv zeta;
  match goal with
  | |- ?G =>
      let G' := eval pattern (m w).1.1, (m w).2 in G in
      lazymatch G' with
      | ?P _ _ => apply (ensures_run m w P)
      end
  end.

Section ActionClaims.
Context {X : Collaborators}.

Lemma compared_nil_elem (x : option EventTreeNode * option error) (P : Prop) :
  x ∈ @nil (option EventTreeNode * option error) → P.
Proof. intros H. by apply elem_of_nil in H. Qed.

Lemma exit_code_children (r : EventTreeNode) :
  (if (0 <? length (Children r))%nat then 1%Z else 0%Z)
  = match Children r with [] => 0%Z | _ :: _ => 1%Z end.
Proof. by destruct (Children r). Qed.

(** C1: in every run of [action] in which the comparison returned a report
    and an error, the process exits, and its status is 2 when the error is
    not nil, whatever the report; otherwise 1 when the report is not nil and
    has at least one child; otherwise 0. *)
Theorem C1_exit_status flags args w report err :
  (report, err) ∈ compared (action flags args w).2 →
  (action flags args w).1.1 =
  Stop (Exited (match err with
                | Some _ => 2
                | None =>
                    match report with
                    | Some r => match Children r with [] => 0 | _ :: _ => 1 end
                    | None => 0
                    end
                end)).
Proof.
  by_run (action flags args) w.
  exec; simpl; try (by apply compared_nil_elem);
    intros Hin; apply list_elem_of_singleton in Hin; simplify_eq; try done;
    repeat match goal with
      | |- context [match ?x with Some _ => _ | None => _ end] => destruct x
      end; simpl; try done; by rewrite exit_code_children.
Qed.

(** C5: in every run of [action] in which the comparison returned an error,
    exactly one line is logged at error severity.  For an error that is
    unavailable in the sense of [errors.Is] the line is the message of the
    error followed by the platform hint; for any other error it is the
    message of the error. *)
Theorem C5_comparison_error_logged_once flags args w report e :
  (report, Some e) ∈ compared (action flags args w).2 →
  logged ErrorLevel (action flags args w).2 =
  [ if Is_ErrUnavailable e
    then Error e +:+ " (Hint: specify `--platform` explicitly, e.g., `--platform=linux/amd64`)"
    else Error e ].
Proof.
  by_run (action flags args) w.
  exec; simpl; try (by apply compared_nil_elem);
    intros Hin; apply list_elem_of_singleton in Hin; simplify_eq;
    match goal with
    | |- context [Is_ErrUnavailable ?x] => by destruct (Is_ErrUnavailable x)
    end.
Qed.


(** Two results of one read or one call are the same result. *)
Ltac unify_reads :=
  repeat match goal with
    | H1 : ?x = _, H2 : ?x = _ |- _ => rewrite H1 in H2; simplify_eq
    end.

(** Close a path of the run that contradicts the hypotheses on what was
    read: a test on a path that went the other way, or a failed read of a
    flag that [Hbools] says is read without error. *)
Ltac discard_path flags Hbools :=
  exfalso; unify_reads;
  first
    [ match goal with
      | Hb : bool_decide (_ ≠ _) = false |- _ =>
          apply bool_decide_eq_false in Hb; by apply Hb
      end
    | match goal with
      | Hg : GetBool flags ?n = (_, Some _) |- _ =>
          assert ((GetBool flags n).2 = None) as Hn
            by (apply Hbools, (bool_decide_unpack _); by vm_compute);
          by rewrite Hg in Hn
      end ].

(** The error returned when the expansion of [report-file] fails: it quotes
    the path returned by [localpathutil.Expand], which has replaced the path
    read from the flag, and no image work has been done. *)
Lemma report_file_expansion_error flags args w backend w1 plats v p e :
  NewBackend flags w = (inl backend, w1) →
  ParsePlatformFlags flags = inl plats →
  earlierReads flags →
  GetString flags "report-file" = (v, None) →
  v ≠ "" →
  Expand w1 v = (p, Some e) →
  (action flags args w).1.1 =
    Stop (Returned (Some (Wrapped ("invalid report-file path " +:+ strconv.Quote p
                                   +:+ ": " +:+ Error e) e)))
  ∧ imageWork (action flags args w).2 = [].
Proof.
  intros Hb Hp (Hbools & files & Hfiles) Hv Hne Hexp.
  by_run (action flags args) w.
  exec; first [by unify_reads; split | discard_path flags Hbools].
Qed.

(** The same for [report-dir], which is expanded after [report-file] has been
    read and, when not empty, expanded without error. *)
Lemma report_dir_expansion_error flags args w backend w1 plats v d p e :
  NewBackend flags w = (inl backend, w1) →
  ParsePlatformFlags flags = inl plats →
  earlierReads flags →
  GetString flags "report-file" = (v, None) →
  (v = "" ∨ ∃ p0, Expand w1 v = (p0, None)) →
  GetString flags "report-dir" = (d, None) →
  d ≠ "" →
  Expand w1 d = (p, Some e) →
  (action flags args w).1.1 =
    Stop (Returned (Some (Wrapped ("invalid report-dir path " +:+ strconv.Quote p
                                   +:+ ": " +:+ Error e) e)))
  ∧ imageWork (action flags args w).2 = [].
Proof.
  intros Hb Hp (Hbools & files & Hfiles) Hv Hfile Hd Hne Hexp.
  by_run (action flags args) w.
  exec;
    first [ by unify_reads; split
          | by destruct Hfile as [->|[p0 Hfile]]; unify_reads
          | discard_path flags Hbools ].
Qed.


End ActionClaims.

(** ** The example runs *)

(** [diffoci diff --semantic --ignore-history=false]: the explicit value is
    overridden, a flag outside the expansion is not touched. *)
Example semantic_overrides_explicit_false :
  let flags := Demo.commandLine [("semantic", "true"); ("ignore-history", "false")] in
  GetBool flags "ignore-history" = (false, None)
  ∧ GetBool (PreRunE flags).1 "ignore-history" = (true, None)
  ∧ GetBool (PreRunE flags).1 "extra-ignore-file-mode" = (false, None)
  ∧ (PreRunE flags).2 = None.
Proof. cbv zeta. split; [|split; [|split]]; vm_compute; reflexivity. Qed.

(** Two references to one image: exit 0 and nothing logged at error
    severity. *)
Example identical_images_exit_0 :
  let run :=
    action (X := Demo.collaborators) (Demo.commandLine [("semantic", "true")])
      ["alpine:3.18.2"; "alpine:3.18.2"] Demo.withHome in
  run.1.1 = Stop (Exited 0) ∧ logged ErrorLevel run.2 = [] ∧ logged WarnLevel run.2 = [].
Proof. cbv zeta. split; [|split]; vm_compute; reflexivity. Qed.

(** An image that cannot be resolved: the run returns the error of the
    acquisition. *)
Example unknown_image_returns_error :
  (action (X := Demo.collaborators) (Demo.commandLine [])
     ["alpine:3.18.2"; "alpine:edge"] Demo.withHome).1.1
  = Stop (Returned (Some (Opaque "alpine:edge: not found"))).
Proof. vm_compute. reflexivity. Qed.

Lemma compared_example :
  compared
    (action (X := Demo.collaborators) (Demo.commandLine [])
       ["alpine:3.18.2"; "alpine:3.18.3"] Demo.withHome).2
  = [(Some (Node "/" [Node "/manifest" []]), None)].
Proof. vm_compute. reflexivity. Qed.

Lemma C1_witness :
  (action (X := Demo.collaborators) (Demo.commandLine [])
     ["alpine:3.18.2"; "alpine:3.18.3"] Demo.withHome).1.1
  = Stop (Exited 1).
Proof.
  refine (C1_exit_status (X := Demo.collaborators) (Demo.commandLine [])
            ["alpine:3.18.2"; "alpine:3.18.3"] Demo.withHome
            (Some (Node "/" [Node "/manifest" []])) None _).
  rewrite compared_example. apply list_elem_of_here.
Defined.

Lemma compared_example_unavailable :
  compared
    (action (X := Demo.collaborators) (Demo.commandLine [])
       ["alpine:3.18.2"; "alpine:3.18.3"] Demo.withoutContent).2
  = [(None, Some (Wrapped "no manifest for the platform: unavailable" ErrUnavailable))].
Proof. vm_compute. reflexivity. Qed.

Lemma C5_witness :
  logged ErrorLevel
    (action (X := Demo.collaborators) (Demo.commandLine [])
       ["alpine:3.18.2"; "alpine:3.18.3"] Demo.withoutContent).2
  = [ "no manifest for the platform: unavailable"
      +:+ " (Hint: specify `--platform` explicitly, e.g., `--platform=linux/amd64`)" ].
Proof.
  refine (C5_comparison_error_logged_once (X := Demo.collaborators) (Demo.commandLine [])
            ["alpine:3.18.2"; "alpine:3.18.3"] Demo.withoutContent None
            (Wrapped "no manifest for the platform: unavailable" ErrUnavailable) _).
  rewrite compared_example_unavailable. apply list_elem_of_here.
Defined.



(** C6 (defect): [--report-file=~/out.json], and likewise
    [--report-dir=~/diff], in an environment without a home directory.  The
    expansion fails; the run returns before any image work and its error
    names the flag, but the path it quotes is the empty path returned by the
    failed expansion: the path supplied on the command line does not occur
    in the message. *)
Theorem C6_expansion_error_omits_supplied_path :
  let args := ["alpine:3.18.2"; "alpine:3.18.3"] in
  let file :=
    action (X := Demo.collaborators)
      (Demo.commandLine [("report-file", "~/out.json")]) args Demo.withoutHome in
  let dir :=
    action (X := Demo.collaborators)
      (Demo.commandLine [("report-dir", "~/diff")]) args Demo.withoutHome in
  let message (r : Res Empty_set) : string :=
    match r with Stop (Returned (Some e)) => Error e | _ => "" end in
  (GetString (Demo.commandLine [("report-file", "~/out.json")]) "report-file"
   = ("~/out.json", None)
   ∧ Expand (Collaborators := Demo.collaborators) Demo.withoutHome "~/out.json"
     = ("", Some (Opaque "$HOME is not defined"))
   ∧ file.1.1
     = Stop (Returned (Some (Wrapped
         ("invalid report-file path " +:+ strconv.Quote "" +:+ ": $HOME is not defined")
         (Opaque "$HOME is not defined"))))
   ∧ String.index 0 "~/out.json" (message file.1.1) = None
   ∧ imageWork file.2 = [])
  ∧ (dir.1.1
     = Stop (Returned (Some (Wrapped
         ("invalid report-dir path " +:+ strconv.Quote "" +:+ ": $HOME is not defined")
         (Opaque "$HOME is not defined"))))
     ∧ String.index 0 "~/diff" (message dir.1.1) = None
     ∧ imageWork dir.2 = []).
Proof.
  cbv zeta.
  split; [split; [|split; [|split; [|split]]]|split; [|split]];
    lazymatch goal with
    | |- imageWork _ = [] => apply length_zero_iff_nil; vm_compute; reflexivity
    | |- _ => vm_compute; reflexivity
    end.
Qed.

(** * Further properties *)

(** ** Alias resolution: failures, marks and composition *)
Section AliasFurther.
Implicit Types (flags : FlagSet) (name k n : string) (a b : Alias).

Lemma FlagSet_Set_dom flags name val : dom (FlagSet_Set flags name val).1 = dom flags.
Proof.
  unfold FlagSet_Set. destruct (flags !! name) as [flag|] eqn:Hn; [|done].
  destruct (Value_Set _ _ _) as [v [e|]]; simpl; by apply dom_insert_lookup_L.
Qed.

Lemma setEach_dom names : ∀ flags, dom (setEach flags names).1 = dom flags.
Proof.
  induction names as [|n names IH]; intros flags; [done|]. simpl.
  pose proof (FlagSet_Set_dom flags n "true") as Hd.
  destruct (FlagSet_Set flags n "true") as [flags1 [e|]]; simpl in *; [done|].
  by rewrite IH.
Qed.

Lemma rule_dom a flags : dom (rule a flags).1 = dom flags.
Proof.
  unfold rule, expand. destruct (GetBool flags (aliasFlag a)).1; [|done].
  apply setEach_dom.
Qed.

Lemma runRules_dom order : ∀ flags, dom (runRules order flags).1 = dom flags.
Proof.
  induction order as [|a order IH]; intros flags; [done|]. simpl.
  pose proof (rule_dom a flags) as Hd.
  destruct (rule a flags) as [flags1 [e|]]; simpl in *; [done|].
  by rewrite IH.
Qed.

(** X1: [PreRunE] neither defines nor removes a flag: a name is defined
    after it exactly when it was defined before, whether or not it fails. *)
Theorem PreRunE_keeps_the_flags_defined flags name :
  is_Some ((PreRunE flags).1 !! name) ↔ is_Some (flags !! name).
Proof.
  rewrite <- !elem_of_dom. rewrite PreRunE_runRules. by rewrite runRules_dom.
Qed.

Lemma setEach_missing names : ∀ flags n,
  n ∈ names → flags !! n = None → (setEach flags names).2 ≠ None.
Proof.
  induction names as [|n0 names IH]; intros flags n Hin Hn.
  - by apply elem_of_nil in Hin.
  - simpl. destruct (decide (n0 = n)) as [->|Hne].
    + unfold FlagSet_Set. by rewrite Hn.
    + apply elem_of_cons in Hin as [->|Hin]; [done|].
      pose proof (FlagSet_Set_frame flags n0 "true" n (not_eq_sym Hne)) as Hfr.
      destruct (FlagSet_Set flags n0 "true") as [flags1 [e|]]; simpl in *; [done|].
      apply (IH flags1 n Hin). by rewrite Hfr.
Qed.

Lemma runRules_missing order : ∀ flags a n,
  a ∈ order →
  (GetBool flags (aliasFlag a)).1 = true →
  n ∈ aliasFlagNames a →
  flags !! n = None →
  (runRules order flags).2 ≠ None.
Proof.
  induction order as [|a0 order IH]; intros flags a n Ha Hread Hn Hmiss.
  - by apply elem_of_nil in Ha.
  - simpl. destruct (decide (a0 = a)) as [->|Hne].
    + assert ((rule a flags).2 ≠ None) as Herr.
      { unfold rule, expand. rewrite Hread. by apply (setEach_missing _ _ n). }
      by destruct (rule a flags) as [flags1 [e|]].
    + apply elem_of_cons in Ha as [->|Ha]; [done|].
      pose proof (rule_alias a0 a flags) as Hal.
      pose proof (rule_dom a0 flags) as Hd.
      destruct (rule a0 flags) as [flags1 [e|]]; simpl in *; [done|].
      apply (IH flags1 a n Ha); [|done|].
      * by rewrite (GetBool_ext flags1 flags _ Hal).
      * apply not_elem_of_dom. rewrite Hd. by apply not_elem_of_dom.
Qed.

(** X2: when an alias reads true and a flag of its expansion list is not
    defined, [PreRunE] returns an error. *)
Theorem PreRunE_fails_on_missing_target flags a n :
  (GetBool flags (aliasFlag a)).1 = true →
  n ∈ aliasFlagNames a →
  flags !! n = None →
  (PreRunE flags).2 ≠ None.
Proof.
  intros. rewrite PreRunE_runRules. apply (runRules_missing _ flags a n); try done.
  destruct a; apply (bool_decide_unpack _); by vm_compute.
Qed.

Lemma registered_after flags flags' :
  registered flags →
  (∀ k, flags' !! k = flags !! k ∨ flags' !! k = Some (boolFlag true true)) →
  registered flags'.
Proof.
  intros Hreg Hlook name Hname. unfold isBoolFlag.
  destruct (Hlook name) as [->| ->]; [by apply Hreg|by eexists _, _].
Qed.

(** X4: on a raw flag set of the command, running [PreRunE] on the flag set
    it has left behind changes nothing more and returns no error. *)
Theorem PreRunE_idempotent flags :
  registered flags → PreRunE (PreRunE flags).1 = PreRunE flags.
Proof.
  intros Hreg. destruct (PreRunE_registered flags Hreg) as (flags1 & Hrun1 & Hlook1).
  rewrite Hrun1. simpl.
  assert (registered flags1) as Hreg1.
  { apply (registered_after flags); [done|]. intros k. rewrite Hlook1.
    destruct (existsb _ _); auto. }
  destruct (PreRunE_registered flags1 Hreg1) as (flags2 & Hrun2 & Hlook2).
  rewrite Hrun2. f_equal. apply map_eq. intros k. rewrite Hlook2, Hlook1.
  assert (∀ a, writes flags1 k a = writes flags k a) as Hw.
  { intros a. apply writes_ext. rewrite Hlook1.
    assert (existsb (writes flags (aliasFlag a))
              [Semantic; IgnoreTimestamps; IgnoreFileTimestamps] = false) as ->; [|done].
    simpl. unfold writes.
    rewrite !(bool_decide_eq_false_2 _ (aliasFlag_not_written a _)).
    by rewrite !andb_false_r. }
  simpl. rewrite !Hw. by destruct (writes flags k Semantic || _).
Qed.

Lemma expandedNames_writes flags name :
  name ∈ expandedNames flags ↔
  existsb (writes flags name) [Semantic; IgnoreTimestamps; IgnoreFileTimestamps] = true.
Proof.
  unfold expandedNames, writes. simpl. rewrite !elem_of_app, orb_false_r, !orb_true_iff.
  rewrite !andb_true_iff, !bool_decide_eq_true.
  destruct (GetBool flags "semantic").1, (GetBool flags "ignore-timestamps").1,
    (GetBool flags "ignore-file-timestamps").1; rewrite ?elem_of_nil; intuition congruence.
Qed.

(** X5: on a raw flag set of the command, every flag in the expansion list of
    an alias that reads true is left as a boolean flag holding true and
    marked as changed, as if it had been given on the command line. *)
Theorem PreRunE_marks_written_flags_changed flags name :
  registered flags →
  name ∈ expandedNames flags →
  (PreRunE flags).1 !! name = Some (boolFlag true true).
Proof.
  intros Hreg Hname. destruct (PreRunE_registered flags Hreg) as (flags1 & Hrun & Hlook).
  rewrite Hrun. simpl. rewrite Hlook.
  apply expandedNames_writes in Hname. by rewrite Hname.
Qed.

Lemma sublist_names :
  (∀ k, k ∈ ignoreFileTimestampsFlagNames → k ∈ ignoreTimestampsFlagNames)
  ∧ (∀ k, k ∈ ignoreTimestampsFlagNames → k ∈ semanticFlagNames).
Proof.
  split; apply Forall_forall; apply (bool_decide_unpack _); by vm_compute.
Qed.

(** X6: on a raw flag set of the command, when [semantic] reads true the two
    timestamp aliases add nothing ([PreRunE] does what the semantic block
    alone does), and when [ignore-timestamps] reads true
    [ignore-file-timestamps] adds nothing. *)
Theorem PreRunE_alias_subsumption flags :
  registered flags →
  (GetBool flags "semantic" = (true, None) →
   PreRunE flags = runRules [Semantic] flags)
  ∧ (GetBool flags "ignore-timestamps" = (true, None) →
     PreRunE flags = runRules [Semantic; IgnoreTimestamps] flags).
Proof.
  intros Hreg. destruct sublist_names as [Hft Hts].
  destruct (PreRunE_registered flags Hreg) as (flags0 & Hrun0 & Hlook0).
  split; intros Hread.
  - destruct (runRules_registered [Semantic] flags flags Hreg) as (flags1 & Hrun1 & Hlook1);
      [done|].
    rewrite Hrun0, Hrun1. f_equal. apply map_eq. intros k. rewrite Hlook0, Hlook1.
    simpl. unfold writes. simpl aliasFlag. simpl aliasFlagNames. rewrite Hread. simpl.
    destruct (decide (k ∈ semanticFlagNames)) as [Hk|Hk].
    + by rewrite (bool_decide_eq_true_2 _ Hk).
    + rewrite !bool_decide_eq_false_2; [|auto..].
      by rewrite !andb_false_r.
  - destruct (runRules_registered [Semantic; IgnoreTimestamps] flags flags Hreg)
      as (flags1 & Hrun1 & Hlook1); [done|].
    rewrite Hrun0, Hrun1. f_equal. apply map_eq. intros k. rewrite Hlook0, Hlook1.
    simpl. unfold writes. simpl aliasFlag. simpl aliasFlagNames. rewrite Hread. simpl.
    destruct (decide (k ∈ ignoreTimestampsFlagNames)) as [Hk|Hk].
    + rewrite (bool_decide_eq_true_2 _ Hk). by rewrite !orb_true_r.
    + rewrite (bool_decide_eq_false_2 (k ∈ ignoreFileTimestampsFlagNames)); [|auto].
      by rewrite !andb_false_r.
Qed.

Lemma setEach_app l1 : ∀ l2 flags,
  setEach flags (l1 ++ l2) =
  match setEach flags l1 with
  | (flags1, None) => setEach flags1 l2
  | (flags1, Some err) => (flags1, Some err)
  end.
Proof.
  induction l1 as [|n l1 IH]; intros l2 flags; [done|]. simpl.
  destruct (FlagSet_Set flags n "true") as [flags1 [e|]]; [done|]. apply IH.
Qed.

(** X3: the expansion of [semantic] stops at the first flag of its list that
    is not defined: [PreRunE] returns the error of that [Set], the flags of
    the list before it have been set to true, and nothing else is changed
    (the rest of the list and the two other aliases are not reached). *)
Theorem PreRunE_stops_at_first_missing_flag flags (pre post : list string) n :
  GetBool flags "semantic" = (true, None) →
  semanticFlagNames = (pre ++ n :: post)%list →
  (∀ k, k ∈ pre → isBoolFlag flags k) →
  flags !! n = None →
  ∃ flags',
    PreRunE flags = (flags', Some (Opaque ("no such flag -" +:+ n)))
    ∧ ∀ k, flags' !! k =
           if bool_decide (k ∈ pre) then Some (boolFlag true true) else flags !! k.
Proof.
  intros Hsem Hsplit Hpre Hn.
  destruct (setEach_bool pre flags Hpre) as (flags1 & Hrun & Hlook).
  exists flags1. split; [|done].
  assert (flags1 !! n = None) as Hn1.
  { rewrite Hlook, bool_decide_eq_false_2; [done|].
    intros Hin. destruct (Hpre n Hin) as (b & c & Hb). by rewrite Hn in Hb. }
  rewrite PreRunE_runRules. cbn [runRules]. unfold rule at 1, expand.
  cbn [aliasFlag aliasFlagNames]. rewrite Hsem. cbn [fst].
  rewrite Hsplit, setEach_app, Hrun. cbn [setEach]. unfold FlagSet_Set.
  by rewrite Hn1.
Qed.

End AliasFurther.

(** ** [action]: what reaches the collaborators, and how a run ends *)

Lemma nonempty_elem {A : Type} (l : list A) : (0 < length l)%nat → ∃ x, x ∈ l.
Proof. destruct l as [|x l]; simpl; [lia|]. intros _. exists x. apply list_elem_of_here. Qed.

(** A test on a path that went to the empty branch says the path is empty. *)
Ltac empty_reads :=
  repeat match goal with
    | H : bool_decide (?x ≠ _) = false |- _ =>
        apply bool_decide_eq_false, dec_stable in H; subst x
    | H : bool_decide (_ ≠ _) = true |- _ => apply bool_decide_eq_true in H
    end.

Ltac use_reads :=
  repeat (match goal with H : _ = _ |- _ => rewrite H end; cbn [fst snd]).

Ltac eval_membership :=
  repeat match goal with
    | |- context [bool_decide (?s ∈ ?l)] =>
        let b := eval vm_compute in (bool_decide (s ∈ l)) in
        change (bool_decide (s ∈ l)) with b
    end.

Section ActionFurther.
Context {X : Collaborators}.

(** What an invocation of the comparison was given, in terms of the flags
    and of the collaborators that produced it. *)
Lemma comparison_arguments flags args w descs platMC o :
  (descs, platMC, o) ∈ comparisons (action flags args w).2 →
  ∃ backend w1 plats,
    NewBackend flags w = (inl backend, w1)
    ∧ ParsePlatformFlags flags = inl plats
    ∧ platMC = platforms_Any plats
    ∧ (IgnoreHistory o = flagValue flags "ignore-history"
       ∧ IgnoreFileOrder o = flagValue flags "ignore-file-order"
       ∧ IgnoreFileModeRedundantBits o = flagValue flags "ignore-file-mode-redundant-bits"
       ∧ IgnoreFileMTime o = flagValue flags "ignore-file-mtime"
       ∧ IgnoreFileATime o = flagValue flags "ignore-file-atime"
       ∧ IgnoreFileCTime o = flagValue flags "ignore-file-ctime"
       ∧ IgnoreFilePermissions o = flagValue flags "extra-ignore-file-permissions"
       ∧ IgnoreFileMode o = flagValue flags "extra-ignore-file-mode"
       ∧ IgnoreFileContent o = flagValue flags "extra-ignore-file-content"
       ∧ IgnoreLayerLengthMismatch o = flagValue flags "extra-ignore-layer-length-mismatch"
       ∧ IgnoreImageTimestamps o = flagValue flags "ignore-image-timestamps"
       ∧ IgnoreImageName o = flagValue flags "ignore-image-name"
       ∧ IgnoreTarFormat o = flagValue flags "ignore-tar-format"
       ∧ CanonicalPaths o = flagValue flags "treat-canonical-paths-equal")
    ∧ GetStringSlice flags "extra-ignore-files" = inl (IgnoreFiles o)
    ∧ GetFloat64 flags "max-scale" = inl (MaxScale o)
    ∧ handler o
      = (if flagValue flags "verbose" then VerboseEventHandler else DefaultEventHandler)
    ∧ (∃ v, GetString flags "report-file" = (v, None)
            ∧ (v = "" ∧ ReportFile o = "" ∨ v ≠ "" ∧ Expand w1 v = (ReportFile o, None)))
    ∧ (∃ v, GetString flags "report-dir" = (v, None)
            ∧ (v = "" ∧ ReportDir o = "" ∨ v ≠ "" ∧ Expand w1 v = (ReportDir o, None))).
Proof.
  by_run (action flags args) w.
  exec; simpl;
    (intros Hin;
     first
       [ by apply elem_of_nil in Hin
       | apply list_elem_of_singleton in Hin; simplify_eq; empty_reads;
         do 3 eexists;
         (split; [eassumption|]); (split; [eassumption|]); (split; [reflexivity|]);
         (split; [unfold flagValue; cbn; use_reads; by repeat split|]);
         (split; [eassumption|]); (split; [eassumption|]);
         (split; [unfold flagValue; cbn; by use_reads|]);
         split; (eexists; split; [eassumption|]);
         first [by left | by right] ]).
Qed.

(** X7: the options given to the comparison copy the flags: each of the
    fourteen boolean options is the value read from its flag, the ignored
    files are the list read from [extra-ignore-files] and the scale is the
    number read from [max-scale]. *)
Theorem options_copy_the_flags flags args w descs platMC o :
  (descs, platMC, o) ∈ comparisons (action flags args w).2 →
  IgnoreHistory o = (GetBool flags "ignore-history").1
  ∧ IgnoreFileOrder o = (GetBool flags "ignore-file-order").1
  ∧ IgnoreFileModeRedundantBits o = (GetBool flags "ignore-file-mode-redundant-bits").1
  ∧ IgnoreFileMTime o = (GetBool flags "ignore-file-mtime").1
  ∧ IgnoreFileATime o = (GetBool flags "ignore-file-atime").1
  ∧ IgnoreFileCTime o = (GetBool flags "ignore-file-ctime").1
  ∧ IgnoreFilePermissions o = (GetBool flags "extra-ignore-file-permissions").1
  ∧ IgnoreFileMode o = (GetBool flags "extra-ignore-file-mode").1
  ∧ IgnoreFileContent o = (GetBool flags "extra-ignore-file-content").1
  ∧ IgnoreLayerLengthMismatch o = (GetBool flags "extra-ignore-layer-length-mismatch").1
  ∧ IgnoreImageTimestamps o = (GetBool flags "ignore-image-timestamps").1
  ∧ IgnoreImageName o = (GetBool flags "ignore-image-name").1
  ∧ IgnoreTarFormat o = (GetBool flags "ignore-tar-format").1
  ∧ CanonicalPaths o = (GetBool flags "treat-canonical-paths-equal").1
  ∧ GetStringSlice flags "extra-ignore-files" = inl (IgnoreFiles o)
  ∧ GetFloat64 flags "max-scale" = inl (MaxScale o).
Proof.
  intros Hin.
  destruct (comparison_arguments _ _ _ _ _ _ Hin)
    as (backend & w1 & plats & _ & _ & _ & Hbools & Hfiles & Hscale & _).
  unfold flagValue in Hbools. tauto.
Qed.

(** X8: the event handler given to the comparison is the verbose one when
    [verbose] reads true and the default one otherwise. *)
Theorem verbose_selects_the_handler flags args w descs platMC o :
  (descs, platMC, o) ∈ comparisons (action flags args w).2 →
  handler o
  = if (GetBool flags "verbose").1 then VerboseEventHandler else DefaultEventHandler.
Proof.
  intros Hin.
  by destruct (comparison_arguments _ _ _ _ _ _ Hin)
    as (backend & w1 & plats & _ & _ & _ & _ & _ & _ & Hh & _).
Qed.


Lemma acquisition_arguments flags args w :
  Forall (λ '(ref, plats, pullMode),
            ParsePlatformFlags flags = inl plats
            ∧ GetString flags "pull" = (pullMode, None)
            ∧ (args !! 0%nat = Some ref ∨ args !! 1%nat = Some ref))
         (acquisitions (action flags args w).2).
Proof.
  by_run (action flags args) w.
  exec; simpl; repeat (apply Forall_cons; split; [by auto|]); by apply Forall_nil.
Qed.

(** X10: every acquisition is given one of the first two arguments, the
    platforms parsed from the flags and the value of [pull] as it was read,
    whatever it is; the matcher given to the comparison is built from the
    same platforms. *)
Theorem platforms_and_pull_mode_passed_on flags args w :
  (∀ ref plats pullMode,
     (ref, plats, pullMode) ∈ acquisitions (action flags args w).2 →
     ParsePlatformFlags flags = inl plats
     ∧ GetString flags "pull" = (pullMode, None)
     ∧ (args !! 0%nat = Some ref ∨ args !! 1%nat = Some ref))
  ∧ (∀ descs platMC o,
       (descs, platMC, o) ∈ comparisons (action flags args w).2 →
       ∃ plats, ParsePlatformFlags flags = inl plats ∧ platMC = platforms_Any plats).
Proof.
  split.
  - intros ref plats pullMode Hin.
    by apply (proj1 (Forall_forall _ _) (acquisition_arguments flags args w) _ Hin).
  - intros descs platMC o Hin.
    destruct (comparison_arguments _ _ _ _ _ _ Hin)
      as (backend & w1 & plats & _ & Hp & Hm & _).
    by exists plats.
Qed.

Lemma resolved_value flags name :
  registered flags →
  flagValue (PreRunE flags).1 name
  = flagValue flags name
    || existsb (writes flags name) [Semantic; IgnoreTimestamps; IgnoreFileTimestamps].
Proof.
  intros Hreg. destruct (PreRunE_registered flags Hreg) as (flags1 & Hrun & Hlook).
  rewrite Hrun. unfold flagValue. cbn [fst]. pose proof (Hlook name) as Hn.
  destruct (existsb _ _).
  - rewrite (GetBool_boolFlag _ _ _ _ Hn). by rewrite orb_true_r.
  - rewrite (GetBool_ext _ _ _ Hn). by rewrite orb_false_r.
Qed.

(** X11: [PreRunE] followed by [action], on a raw flag set of the command.
    In the options given to the comparison an option is true exactly when
    its own flag was given true or an alias that expands to it was:
    [semantic] for the ten options of its list, [ignore-timestamps] also for
    the three file times and the image timestamps, [ignore-file-timestamps]
    also for the three file times; the four [extra-] options follow their
    own flag only. *)
Theorem resolved_options flags args w descs platMC o :
  registered flags →
  (descs, platMC, o) ∈ comparisons (action (PreRunE flags).1 args w).2 →
  let raw name := (GetBool flags name).1 in
  let sem := (GetBool flags "semantic").1 in
  let ts := (GetBool flags "ignore-timestamps").1 in
  let fts := (GetBool flags "ignore-file-timestamps").1 in
  IgnoreHistory o = raw "ignore-history" || sem
  ∧ IgnoreFileOrder o = raw "ignore-file-order" || sem
  ∧ IgnoreFileModeRedundantBits o = raw "ignore-file-mode-redundant-bits" || sem
  ∧ IgnoreFileMTime o = raw "ignore-file-mtime" || sem || ts || fts
  ∧ IgnoreFileATime o = raw "ignore-file-atime" || sem || ts || fts
  ∧ IgnoreFileCTime o = raw "ignore-file-ctime" || sem || ts || fts
  ∧ IgnoreImageTimestamps o = raw "ignore-image-timestamps" || sem || ts
  ∧ IgnoreImageName o = raw "ignore-image-name" || sem
  ∧ IgnoreTarFormat o = raw "ignore-tar-format" || sem
  ∧ CanonicalPaths o = raw "treat-canonical-paths-equal" || sem
  ∧ IgnoreFilePermissions o = raw "extra-ignore-file-permissions"
  ∧ IgnoreFileMode o = raw "extra-ignore-file-mode"
  ∧ IgnoreFileContent o = raw "extra-ignore-file-content"
  ∧ IgnoreLayerLengthMismatch o = raw "extra-ignore-layer-length-mismatch".
Proof.
  intros Hreg Hin.
  destruct (comparison_arguments _ _ _ _ _ _ Hin)
    as (backend & w1 & plats & _ & _ & _ & Hbools & _).
  destruct Hbools as (-> & -> & -> & -> & -> & -> & -> & -> & -> & -> & -> & -> & -> & ->).
  cbv zeta. rewrite !(resolved_value flags _ Hreg). cbn [existsb]. unfold writes, flagValue.
  cbn [aliasFlag aliasFlagNames]. eval_membership.
  rewrite !andb_true_r, !andb_false_r, !orb_false_r.
  repeat split; by rewrite ?orb_assoc.
Qed.

(** How a run ends, and what it has logged and invoked by then. *)
Lemma action_ends flags args w :
  let r := (action flags args w).1.1 in
  let t := (action flags args w).2 in
  (∃ e, r = Stop (Returned (Some e))
        ∧ logged ErrorLevel t = [] ∧ compared t = [] ∧ comparisons t = [])
  ∨ (r = Stop Panicked ∧ (length args < 2)%nat
     ∧ logged ErrorLevel t = [] ∧ compared t = [] ∧ comparisons t = [])
  ∨ (∃ report err code,
       r = Stop (Exited code)
       ∧ compared t = [(report, err)]
       ∧ length (comparisons t) = 1%nat
       ∧ (code = 0 ∨ code = 1 ∨ code = 2)%Z
       ∧ (code = 0%Z → last t = Some (RetDiff report None))
       ∧ (code ≠ 0%Z →
          last t = Some (Log DebugLevel ("exiting with code " +:+ pretty code)))).
Proof.
  by_run (action flags args) w.
  exec; simpl;
    first
      [ left; eexists; split; [reflexivity|]; by repeat split
      | right; left; split; [reflexivity|]; split; [|by repeat split];
        match goal with
        | H : _ !! _ = None |- _ => apply lookup_ge_None in H; simpl in H; lia
        end
      | right; right;
        repeat match goal with
          | |- context [match ?x with Some _ => _ | None => _ end] =>
              destruct x as [[? [|? ?]]|]
          end;
        simpl in *;
        repeat match goal with
          | H : bool_decide _ = true |- _ => apply bool_decide_eq_true in H
          | H : bool_decide _ = false |- _ => apply bool_decide_eq_false in H
          end;
        do 3 eexists;
        (split; [reflexivity|]); (split; [reflexivity|]); (split; [reflexivity|]);
        (split; [by auto|]); split; intros Hcode; by try lia ].
Qed.

(** X12: a run of [action] that returns, rather than exits, returns an error
    that is not nil; it has logged nothing at error severity and the
    comparison has not been invoked.  The [return nil] that closes the
    function is never reached. *)
Theorem action_returns_only_errors flags args w err :
  (action flags args w).1.1 = Stop (Returned err) →
  err ≠ None
  ∧ logged ErrorLevel (action flags args w).2 = []
  ∧ comparisons (action flags args w).2 = []
  ∧ compared (action flags args w).2 = [].
Proof.
  intros Hr.
  destruct (action_ends flags args w)
    as [(e & Hr' & Hlog & Hcmp & Hcalls)|[(Hr' & _)|(report & err' & code & Hr' & _)]];
    rewrite Hr in Hr'; simplify_eq. done.
Qed.

(** X13: a run of [action] that exits has invoked the comparison exactly
    once, and it exits with 0, 1 or 2. *)
Theorem action_exits_after_one_comparison flags args w code :
  (action flags args w).1.1 = Stop (Exited code) →
  (code = 0 ∨ code = 1 ∨ code = 2)%Z
  ∧ length (comparisons (action flags args w).2) = 1%nat
  ∧ ∃ report err, compared (action flags args w).2 = [(report, err)].
Proof.
  intros Hr.
  destruct (action_ends flags args w)
    as [(e & Hr' & _)|[(Hr' & _)|(report & err' & code' & Hr' & Hcmp & Hone & Hcode & _)]];
    rewrite Hr in Hr'; simplify_eq. eauto.
Qed.

(** X14: the last thing a run that exits has done.  With a status other than
    0 it is the debug line that states the status; with status 0 no such
    line is logged: nothing follows the return of the comparison, which
    returned no error. *)
Theorem exit_status_line flags args w code :
  (action flags args w).1.1 = Stop (Exited code) →
  (code ≠ 0%Z →
   last (action flags args w).2
   = Some (Log DebugLevel ("exiting with code " +:+ pretty code)))
  ∧ (code = 0%Z → ∃ report, last (action flags args w).2 = Some (RetDiff report None)).
Proof.
  intros Hr.
  destruct (action_ends flags args w)
    as [(e & Hr' & _)|[(Hr' & _)|(report & err' & code' & Hr' & _ & _ & _ & H0 & Hn)]];
    rewrite Hr in Hr'; simplify_eq. split; [done|]. intros Hc. exists report. by apply H0.
Qed.

(** X15: [action] reads its arguments at the indices 0 and 1 only.  It can
    panic only when it is given fewer than two arguments, and arguments after
    the second change nothing. *)
Theorem action_reads_two_arguments flags args w :
  ((action flags args w).1.1 = Stop Panicked → (length args < 2)%nat)
  ∧ (∀ a0 a1 rest, args = a0 :: a1 :: rest → action flags args w = action flags [a0; a1] w).
Proof.
  split.
  - intros Hr.
    destruct (action_ends flags args w)
      as [(e & Hr' & _)|[(Hr' & Hlen & _)|(report & err' & code' & Hr' & _)]];
      rewrite Hr in Hr'; by simplify_eq.
  - by intros a0 a1 rest ->.
Qed.




End ActionFurther.

(** ** Further example runs *)

Lemma verboseRun_compares : (0 < length (comparisons Runs.verboseRun.2))%nat.
Proof. vm_compute. lia. Qed.

Lemma verboseRun_acquires : (0 < length (acquisitions Runs.verboseRun.2))%nat.
Proof. vm_compute. lia. Qed.

Lemma semanticRun_compares : (0 < length (comparisons Runs.semanticRun.2))%nat.
Proof. vm_compute. lia. Qed.

Lemma plainRun_exits : Runs.plainRun.1.1 = Stop (Exited 1).
Proof. vm_compute. reflexivity. Qed.

Lemma one_argument_panics :
  (action (X := Demo.collaborators) (Demo.commandLine []) ["alpine:3.18.2"] Demo.withHome).1.1
  = Stop Panicked.
Proof. vm_compute. reflexivity. Qed.

Lemma withoutTarFormat_bools k :
  k ∈ [ "ignore-history"; "ignore-file-order"; "ignore-file-mode-redundant-bits";
        "ignore-file-mtime"; "ignore-file-atime"; "ignore-file-ctime";
        "ignore-image-timestamps"; "ignore-image-name" ] →
  isBoolFlag Runs.withoutTarFormat k.
Proof.
  revert k. apply Forall_forall.
  repeat (apply Forall_cons; split;
          [unfold isBoolFlag, Runs.withoutTarFormat; rewrite lookup_delete_ne by done;
           apply commandLine_registered, (bool_decide_unpack _); by vm_compute|]).
  constructor.
Qed.

Lemma PreRunE_fails_on_missing_target_witness : (PreRunE Runs.withoutTarFormat).2 ≠ None.
Proof.
  refine (PreRunE_fails_on_missing_target Runs.withoutTarFormat Semantic
            "ignore-tar-format" _ _ _).
  - vm_compute. reflexivity.
  - apply (bool_decide_unpack _). by vm_compute.
  - apply lookup_delete_eq.
Defined.

Lemma PreRunE_stops_at_first_missing_flag_witness :
  ∃ flags',
    PreRunE Runs.withoutTarFormat = (flags', Some (Opaque "no such flag -ignore-tar-format"))
    ∧ flags' !! "ignore-image-name" = Some (boolFlag true true)
    ∧ flags' !! "treat-canonical-paths-equal"
      = Runs.withoutTarFormat !! "treat-canonical-paths-equal".
Proof.
  destruct (PreRunE_stops_at_first_missing_flag Runs.withoutTarFormat
              [ "ignore-history"; "ignore-file-order"; "ignore-file-mode-redundant-bits";
                "ignore-file-mtime"; "ignore-file-atime"; "ignore-file-ctime";
                "ignore-image-timestamps"; "ignore-image-name" ]
              ["treat-canonical-paths-equal"] "ignore-tar-format")
    as (flags' & Hrun & Hlook).
  - vm_compute. reflexivity.
  - reflexivity.
  - apply withoutTarFormat_bools.
  - apply lookup_delete_eq.
  - exists flags'. split; [exact Hrun|].
    split; rewrite Hlook; [by vm_compute|].
    by replace (bool_decide _) with false by (by vm_compute).
Defined.

Lemma PreRunE_idempotent_witness :
  let flags := Demo.commandLine [("ignore-timestamps", "true")] in
  PreRunE (PreRunE flags).1 = PreRunE flags.
Proof. intros flags. exact (PreRunE_idempotent flags (commandLine_registered _)). Defined.

Lemma PreRunE_marks_written_flags_changed_witness :
  let flags := Demo.commandLine [("ignore-file-timestamps", "true")] in
  flags !! "ignore-file-atime" = Some (boolFlag false false)
  ∧ (PreRunE flags).1 !! "ignore-file-atime" = Some (boolFlag true true).
Proof.
  intros flags. split; [reflexivity|].
  refine (PreRunE_marks_written_flags_changed flags "ignore-file-atime"
            (commandLine_registered _) _).
  apply (bool_decide_unpack _). by vm_compute.
Defined.

Lemma PreRunE_alias_subsumption_witness :
  let flags := Demo.commandLine [("semantic", "true"); ("ignore-file-timestamps", "true")] in
  PreRunE flags = runRules [Semantic] flags.
Proof.
  intros flags.
  refine (proj1 (PreRunE_alias_subsumption flags (commandLine_registered _)) _).
  vm_compute. reflexivity.
Defined.

Lemma options_copy_the_flags_witness :
  ∃ descs platMC o,
    (descs, platMC, o) ∈ comparisons Runs.verboseRun.2
    ∧ IgnoreFileMode o = true ∧ IgnoreFileContent o = false.
Proof.
  destruct (nonempty_elem _ verboseRun_compares) as [[[descs platMC] o] Hin].
  exists descs, platMC, o. split; [exact Hin|].
  destruct (options_copy_the_flags (X := Demo.collaborators) Runs.verboseFlags Runs.images
              Demo.withHome descs platMC o Hin)
    as (_ & _ & _ & _ & _ & _ & _ & Hmode & Hcontent & _).
  rewrite Hmode, Hcontent. split; vm_compute; reflexivity.
Defined.

Lemma verbose_selects_the_handler_witness :
  ∃ descs platMC o,
    (descs, platMC, o) ∈ comparisons Runs.verboseRun.2 ∧ handler o = VerboseEventHandler.
Proof.
  destruct (nonempty_elem _ verboseRun_compares) as [[[descs platMC] o] Hin].
  exists descs, platMC, o. split; [exact Hin|].
  rewrite (verbose_selects_the_handler (X := Demo.collaborators) Runs.verboseFlags
             Runs.images Demo.withHome descs platMC o Hin).
  vm_compute. reflexivity.
Defined.


Lemma platforms_and_pull_mode_passed_on_witness :
  ∃ ref plats pullMode,
    (ref, plats, pullMode) ∈ acquisitions Runs.verboseRun.2 ∧ pullMode = "missing".
Proof.
  destruct (nonempty_elem _ verboseRun_acquires) as [[[ref plats] pullMode] Hin].
  exists ref, plats, pullMode. split; [exact Hin|].
  destruct (proj1 (platforms_and_pull_mode_passed_on (X := Demo.collaborators)
                     Runs.verboseFlags Runs.images Demo.withHome) ref plats pullMode Hin)
    as (_ & Hpull & _).
  vm_compute in Hpull. congruence.
Defined.

Lemma resolved_options_witness :
  ∃ descs platMC o,
    (descs, platMC, o) ∈ comparisons Runs.semanticRun.2
    ∧ IgnoreTarFormat o = true ∧ IgnoreFileMode o = false.
Proof.
  destruct (nonempty_elem _ semanticRun_compares) as [[[descs platMC] o] Hin].
  exists descs, platMC, o. split; [exact Hin|].
  destruct (resolved_options (X := Demo.collaborators) Runs.semanticFlags Runs.images
              Demo.withHome descs platMC o (commandLine_registered _) Hin)
    as (_ & _ & _ & _ & _ & _ & _ & _ & Htar & _ & _ & Hmode & _).
  rewrite Htar, Hmode. split; vm_compute; reflexivity.
Defined.

Lemma action_returns_only_errors_witness :
  logged ErrorLevel
    (action (X := Demo.collaborators) (Demo.commandLine [])
       ["alpine:3.18.2"; "alpine:edge"] Demo.withHome).2 = [].
Proof.
  exact (proj1 (proj2 (action_returns_only_errors (X := Demo.collaborators)
                         (Demo.commandLine []) ["alpine:3.18.2"; "alpine:edge"]
                         Demo.withHome _ unknown_image_returns_error))).
Defined.

Lemma action_exits_after_one_comparison_witness :
  length (comparisons Runs.plainRun.2) = 1%nat.
Proof.
  exact (proj1 (proj2 (action_exits_after_one_comparison (X := Demo.collaborators)
                         (Demo.commandLine []) Runs.images Demo.withHome 1 plainRun_exits))).
Defined.

Lemma exit_status_line_witness :
  last Runs.plainRun.2 = Some (Log DebugLevel ("exiting with code " +:+ pretty 1%Z)).
Proof.
  refine (proj1 (exit_status_line (X := Demo.collaborators)
                   (Demo.commandLine []) Runs.images Demo.withHome 1 plainRun_exits) _).
  discriminate.
Defined.

Lemma action_reads_two_arguments_witness : (length ["alpine:3.18.2"] < 2)%nat.
Proof.
  exact (proj1 (action_reads_two_arguments (X := Demo.collaborators)
                  (Demo.commandLine []) ["alpine:3.18.2"] Demo.withHome)
           one_argument_panics).
Defined.

